(** * kodi-douban-scraper-2in1: the local server's filename normalizer,
      result ranking and read-through cache

    A shallow embedding of [local-server/kodi-douban-scraper-2in1.py].

    - Python [str] values are Rocq [string]s.  For filenames a character is
      a code point below U+0100: [lower], the whitespace class of
      [str.split]/[str.strip] and [int] are written out for that whole
      range (so they are exact on every ASCII filename).  The catalogue's
      titles are only compared and searched, never case-mapped or split;
      they are carried as their UTF-8 bytes, on which substring search
      agrees with search on code points.
    - Python [int] values are [Z].  [int(str)] is the one of Python 3.6
      and later (underscores between digits), without the limit on the
      number of digits that 3.11 added.
    - An exception is a value of [exn]; code that can raise returns a
      [result].
    - The year of a candidate of the catalogue is whatever JSON value the
      answer has there.  The loop of [GetSearchResults] is read for every
      type of such values and every behaviour of [int] on them, so that
      text in any script, numbers and [null] are all covered.
    - [cache.db] is a pair of finite maps, one per table; a connection
      sees its own uncommitted changes, [commit] writes them to the file
      and closing the connection drops them.  A counter of [stats] is an
      integer; SQLite keeps it one up to [2^63 - 1].
    - [cache_get] calls its [func] argument; the model is a tree whose
      [Call] nodes are those calls, and [run] counts them.  [json] and
      [base64] are parameters of the model. *)

From Stdlib Require Import ZArith List String Ascii Bool Lia Permutation.
From stdpp Require Import gmap strings.

Import ListNotations.
Local Open Scope string_scope.
Local Open Scope Z_scope.

(** ** Exceptions *)

Inductive exn : Type :=
| ValueError
| IndexError
| AssertionError
| TypeError
| RequestException (msg : string).

Inductive result (A : Type) : Type :=
| Ok (a : A)
| Raise (e : exn).

Arguments Ok {A} a.
Arguments Raise {A} e.

Definition rbind {A B : Type} (r : result A) (k : A -> result B) : result B :=
  match r with
  | Ok a => k a
  | Raise e => Raise e
  end.

Notation "x <-! r ; k" := (rbind r (fun x => k))
  (at level 100, r at next level, right associativity, only parsing).

(** ** Python string primitives *)

Module PyStr.

Definition code (c : ascii) : N := N_of_ascii c.

Definition between (lo hi : N) (c : ascii) : bool :=
  ((lo <=? code c) && (code c <=? hi))%N.

(** [str.lower] on one code point below U+0100: A-Z and the Latin-1
    capitals U+00C0..U+00DE (but not U+00D7, the multiplication sign)
    move up by 32. *)
Definition lower_char (c : ascii) : ascii :=
  if between 65 90 c || between 192 214 c || between 216 222 c
  then ascii_of_N (code c + 32)
  else c.

Fixpoint lower (s : string) : string :=
  match s with
  | EmptyString => EmptyString
  | String c r => String (lower_char c) (lower r)
  end.

(** [s.replace(a, b)] for one-character [a] and [b]. *)
Fixpoint replace (a b : ascii) (s : string) : string :=
  match s with
  | EmptyString => EmptyString
  | String c r => String (if Ascii.eqb c a then b else c) (replace a b r)
  end.

Definition len (s : string) : Z := Z.of_nat (String.length s).

(** [s.find(sub)]: the lowest index at which [sub] occurs, -1 if none. *)
Fixpoint find (s sub : string) : Z :=
  if String.prefix sub s then 0
  else match s with
       | EmptyString => -1
       | String _ r => let i := find r sub in
                       if i =? -1 then -1 else i + 1
       end.

(** [sub in s] *)
Definition contains (sub s : string) : bool := negb (find s sub =? -1).

Fixpoint take (n : nat) (s : string) : string :=
  match n, s with
  | S n', String c r => String c (take n' r)
  | _, _ => EmptyString
  end.

(** [s[:stop]], a negative [stop] counting from the end. *)
Definition slice_to (s : string) (stop : Z) : string :=
  if stop <? 0 then take (Z.to_nat (len s + stop)) s
  else take (Z.to_nat stop) s.

(** Whitespace as [str.split()] and [str.strip()] see it. *)
Definition is_space (c : ascii) : bool :=
  between 9 13 c || between 28 32 c
  || (code c =? 133)%N || (code c =? 160)%N.

(** Whitespace as [int()] sees it: the separators U+001C..U+001F are
    not dropped there. *)
Definition is_int_space (c : ascii) : bool :=
  between 9 13 c || (code c =? 32)%N
  || (code c =? 133)%N || (code c =? 160)%N.

Definition is_digit (c : ascii) : bool := between 48 57 c.

Definition is_empty (s : string) : bool :=
  match s with EmptyString => true | _ => false end.

(** [s] without the run of [sp] characters at its head, at its end. *)
Fixpoint lstrip_by (sp : ascii -> bool) (s : string) : string :=
  match s with
  | EmptyString => EmptyString
  | String c r => if sp c then lstrip_by sp r else s
  end.

Fixpoint rstrip_by (sp : ascii -> bool) (s : string) : string :=
  match s with
  | EmptyString => EmptyString
  | String c r =>
      let r' := rstrip_by sp r in
      if sp c && is_empty r' then EmptyString else String c r'
  end.

(** [s.strip()] *)
Definition strip (s : string) : string :=
  rstrip_by is_space (lstrip_by is_space s).

Definition push (tok : string) (toks : list string) : list string :=
  if is_empty tok then toks else tok :: toks.

(** The token being read at the head of [s] and the tokens after it. *)
Fixpoint split_ws (s : string) : string * list string :=
  match s with
  | EmptyString => (EmptyString, [])
  | String c r =>
      let '(tok, toks) := split_ws r in
      if is_space c then (EmptyString, push tok toks)
      else (String c tok, toks)
  end.

(** [s.split()]: the maximal runs of non-whitespace characters. *)
Definition split (s : string) : list string :=
  let '(tok, toks) := split_ws s in push tok toks.

(** [sep.join(l)] *)
Fixpoint join (sep : string) (l : list string) : string :=
  match l with
  | [] => EmptyString
  | [x] => x
  | x :: r => x ++ sep ++ join sep r
  end.

Definition digit_val (c : ascii) : Z := Z.of_N (code c) - 48.

(** The digits of an integer literal after the sign: decimal digits,
    with single underscores allowed between two digits. *)
Fixpoint int_body (acc : Z) (after_digit : bool) (s : string) : option Z :=
  match s with
  | EmptyString => if after_digit then Some acc else None
  | String c r =>
      if is_digit c then int_body (10 * acc + digit_val c) true r
      else if Ascii.eqb c "_" then
             if after_digit then int_body acc false r else None
      else None
  end.

(** [int(s)] in base 10: surrounding whitespace is dropped, one sign is
    accepted; anything else raises [ValueError]. *)
Definition int (s : string) : result Z :=
  let s := rstrip_by is_int_space (lstrip_by is_int_space s) in
  let '(neg, body) :=
    match s with
    | String "+" r => (false, r)
    | String "-" r => (true, r)
    | _ => (false, s)
    end in
  match int_body 0 false body with
  | Some n => Ok (if neg then - n else n)
  | None => Raise ValueError
  end.

(** [new.join] put around every character: [s.replace('', new)]. *)
Fixpoint intersperse (new s : string) : string :=
  match s with
  | EmptyString => new
  | String c r => new ++ String c (intersperse new r)
  end.

(** The scan of [s.replace(old, new)] for a non-empty [old]: [skip]
    characters of a match just replaced are still to be passed over. *)
Fixpoint replace_go (old new : string) (skip : nat) (s : string) : string :=
  match s with
  | EmptyString => EmptyString
  | String c r =>
      match skip with
      | S k => replace_go old new k r
      | O =>
          if String.prefix old s
          then new ++ replace_go old new (Nat.pred (String.length old)) r
          else String c (replace_go old new 0 r)
      end
  end.

(** [s.replace(old, new)]: the occurrences of [old] found from the left,
    none overlapping another, each replaced by [new]. *)
Definition replace_str (old new s : string) : string :=
  if is_empty old then intersperse new s else replace_go old new 0 s.

Definition digit_char (d : Z) : ascii := ascii_of_N (48 + Z.to_N d).

(** The decimal digits of [n >= 0] in front of [acc]. *)
Fixpoint digits_go (fuel : nat) (n : Z) (acc : string) : string :=
  match fuel with
  | O => acc
  | S fuel =>
      let acc := String (digit_char (n mod 10)) acc in
      if n <? 10 then acc else digits_go fuel (n / 10) acc
  end.

(** [str(n)], which is ['{}'.format(n)], of an [int]. *)
Definition str (n : Z) : string :=
  if n <? 0
  then String "-" (digits_go (S (Z.to_nat (Z.log2 (- n)))) (- n) EmptyString)
  else digits_go (S (Z.to_nat (Z.log2 n))) n EmptyString.

(** ['{:02d}'.format(n)]: at least two characters, zeros in front. *)
Definition format_02d (n : Z) : string :=
  if (0 <=? n) && (n <? 10) then String "0" (str n) else str n.

End PyStr.

(** ** FilenameNormalizer: [get_title_from_filename] *)

Definition CLEAR_SUFFIX : list string :=
  [ "repack"; "unrated";
    "480p"; "720p"; "1080i"; "1080p"; "4k";
    "web"; "web-dl"; "bluray"; "blu-ray"; "hdtv";
    "dd5.1"; "dts"; "ddp5.1"; "avc";
    "x264"; "x.264"; "h264"; "h.264" ].

(** A match of [REGEX_SEASON_EPISODE]: where it starts and its three
    groups ([None] for a group that took no part in the match). *)
Record re_match : Type := {
  m_start : Z;
  m_groups : string * option string * option string
}.

Module Regex.

(** The longest run of [[0-9]] at the head of [s], and what follows. *)
Fixpoint digits (s : string) : string * string :=
  match s with
  | EmptyString => (EmptyString, EmptyString)
  | String c r =>
      if PyStr.is_digit c
      then let '(d, rest) := digits r in (String c d, rest)
      else (EmptyString, s)
  end.

(** [\.s([0-9]+)(e([0-9]+))?] anchored at the head of [s]. *)
Definition match_here (s : string)
  : option (string * option string * option string) :=
  match s with
  | String "." (String "s" r) =>
      let '(season, rest) := digits r in
      if PyStr.is_empty season then None
      else match rest with
           | String "e" rest' =>
               let '(episode, _) := digits rest' in
               if PyStr.is_empty episode then Some (season, None, None)
               else Some (season, Some (String "e" episode), Some episode)
           | _ => Some (season, None, None)
           end
  | _ => None
  end.

Fixpoint search_from (i : Z) (s : string) : option re_match :=
  match match_here s with
  | Some g => Some {| m_start := i; m_groups := g |}
  | None =>
      match s with
      | EmptyString => None
      | String _ r => search_from (i + 1) r
      end
  end.

End Regex.

(** [REGEX_SEASON_EPISODE.search(name)]: the leftmost match. *)
Definition REGEX_SEASON_EPISODE_search (name : string) : option re_match :=
  Regex.search_from 0 name.

(** Lines 181-184: the loop over [CLEAR_SUFFIX]. *)
Definition clear_suffix_end (name : string) (end_ : Z) : Z :=
  fold_left
    (fun end_ suffix =>
       let idx := PyStr.find name suffix in
       if negb (idx =? -1) then Z.min end_ idx else end_)
    CLEAR_SUFFIX end_.

(** Lines 187-192: [int(split[-1])] when more than one token is left,
    a [ValueError] being swallowed. *)
Definition trailing_int (split : list string) : option Z :=
  if (1 <? Z.of_nat (length split)) then
    match PyStr.int (List.last split EmptyString) with
    | Ok y => Some y
    | Raise _ => None
    end
  else None.

(** Lines 170-179: the season, the episode and the end of the title as
    the season marker leaves them. *)
Definition season_episode_end (name : string)
  : result (option Z * option Z * Z) :=
  let end_ := PyStr.len name in
  match REGEX_SEASON_EPISODE_search name with
  | Some m =>
      let '(season, _, episode) := m_groups m in
      season <-! PyStr.int season;
      episode <-! match episode with
                  | Some e =>
                      if PyStr.is_empty e then Ok None
                      else (n <-! PyStr.int e; Ok (Some n))
                  | None => Ok None
                  end;
      Ok (Some season, episode, Z.min end_ (m_start m))
  | None => Ok (None, None, end_)
  end.

(** Lines 186-195: the tokens before [end_], the year and the title. *)
Definition title_and_year (name : string) (end_ : Z) : string * option Z :=
  let split :=
    PyStr.split
      (PyStr.strip (PyStr.replace "." " " (PyStr.slice_to name end_))) in
  let year := trailing_int split in
  let split :=
    match year with
    | Some y =>
        if (1900 <=? y) && (y <=? 2100) then List.removelast split else split
    | None => split
    end in
  (PyStr.join " " split, year).

Definition get_title_from_filename (filename : string)
  : result (string * option Z * option Z * option Z) :=
  let name := PyStr.replace " " "." (PyStr.lower filename) in
  sem <-! season_episode_end name;
  let '(season, episode, end_) := sem in
  let end_ := clear_suffix_end name end_ in
  let '(title, year) := title_and_year name end_ in
  Ok (title, year, season, episode).

(** ** NumeralCodec: [DIGITS_TO_CHINESE_NUMBER] *)

Definition DIGITS_TO_CHINESE_NUMBER : list string :=
  [ "零"; "一"; "二"; "三"; "四"; "五"; "六"; "七"; "八"; "九"; "十" ]
  ++ map (fun s => "十" ++ s)
         [ "一"; "二"; "三"; "四"; "五"; "六"; "七"; "八"; "九" ].

(** [l[i]]: a negative index counts from the end, an index outside
    [-len(l) .. len(l)-1] raises [IndexError]. *)
Definition py_index {A : Type} (l : list A) (i : Z) : result A :=
  let n := Z.of_nat (length l) in
  let j := if i <? 0 then i + n else i in
  if (0 <=? j) && (j <? n) then
    match nth_error l (Z.to_nat j) with
    | Some x => Ok x
    | None => Raise IndexError
    end
  else Raise IndexError.

(** ** ResultRanker: the loop of [GetSearchResults] over [value['subjects']] *)

(** A candidate of the catalogue's search answer: the fields the loop
    reads.  [subject_year] is [subject['year']], whatever value the answer
    has there (text in any script, a number, [null], ...), and [None] when
    the candidate has no such field. *)
Record subject (value : Type) : Type := {
  subject_id : string;
  subject_title : string;
  subject_year : option value
}.

Arguments Build_subject {value} _ _ _.
Arguments subject_id {value} _.
Arguments subject_title {value} _.
Arguments subject_year {value} _.

(** Line 222: ['第{}季'.format(DIGITS_TO_CHINESE_NUMBER[season])]. *)
Definition str_chinese_season (season : Z) : result string :=
  chinese <-! py_index DIGITS_TO_CHINESE_NUMBER season;
  Ok ("第" ++ chinese ++ "季").

Section ResultRanker.

(** The values of the answer and the builtin [int] on them, with the
    exception it raises when it does not return.  [PyStr.int] is that
    builtin on text of code points below U+0100; the answer may hold
    other text and values that are not text, so the loop is read for
    every such [int]. *)
Context {value : Type} (int : value -> result Z).

(** Lines 214-217: [int(subject['year'])], any exception giving [None]. *)
Definition subject_year_int (s : subject value) : option Z :=
  match subject_year s with
  | Some y => match int y with
              | Ok n => Some n
              | Raise _ => None
              end
  | None => None
  end.

(** Line 218: the test whose negation skips the candidate. *)
Definition year_compatible (year : option Z) (s : subject value) : bool :=
  match subject_year_int s, year with
  | None, _ => true
  | _, None => true
  | Some subject_year, Some year =>
      (subject_year - 1 <=? year) && (year <=? subject_year + 1)
  end.

(** Lines 213-227.  [subjects] is the deque built so far: [appendleft]
    puts a candidate at its head, [append] at its end. *)
Fixpoint rank_loop (year season : option Z) (subjects : list (subject value))
    (rest : list (subject value)) : result (list (subject value)) :=
  match rest with
  | [] => Ok subjects
  | s :: rest =>
      if negb (year_compatible year s) then rank_loop year season subjects rest
      else
        prepend <-! match season with
                    | Some season =>
                        (marker <-! str_chinese_season season;
                         Ok (PyStr.contains marker (subject_title s)))
                    | None => Ok false
                    end;
        if prepend : bool
        then rank_loop year season (s :: subjects) rest
        else rank_loop year season (subjects ++ [s]) rest
  end.

(** The deque [subjects] that [GetSearchResults] goes on to render, from
    [value['subjects']] and the year and season of the file name. *)
Definition GetSearchResults_subjects (value_subjects : list (subject value))
    (year season : option Z) : result (list (subject value)) :=
  rank_loop year season [] value_subjects.

End ResultRanker.

(** ** CacheStore: [get_db], [close_connection], [cache_get] *)

(** The two tables of [cache.db]. [key TEXT UNIQUE] makes each a finite
    map. *)
Record tables : Type := {
  cache : gmap string string;
  stats : gmap string Z
}.

(** What [CREATE TABLE IF NOT EXISTS] leaves in a new file. *)
Definition new_tables : tables := {| cache := ∅; stats := ∅ |}.

(** [file]: what is committed to [cache.db] ([None]: no tables yet).
    [g_database]: the connection of the running request, if one is open,
    as the tables it sees, its uncommitted changes included. *)
Record world : Type := {
  file : option tables;
  g_database : option tables
}.

Definition get_db (w : world) : tables * world :=
  match g_database w with
  | Some db => (db, w)
  | None =>
      let db := default new_tables (file w) in
      (db, {| file := Some db; g_database := Some db |})
  end.

(** Teardown of the request: the connection is closed, what it had not
    committed is lost. *)
Definition close_connection (w : world) : world :=
  {| file := file w; g_database := None |}.

(** [UPDATE stats SET value=value+1 WHERE key=?].  The column is an
    SQLite [INT]: a row holds a signed integer of 64 bits, and the sum is
    this one as long as the row is below [2^63 - 1]. *)
Definition update_stats (key : string) (db : tables) : tables :=
  {| cache := cache db; stats := alter Z.succ key (stats db) |}.

(** [INSERT OR REPLACE INTO cache (key, value) VALUES (?, ?)] *)
Definition insert_cache (key value : string) (db : tables) : tables :=
  {| cache := <[key := value]> (cache db); stats := stats db |}.

(** The connection now sees [db]; nothing is committed. *)
Definition executed (db : tables) (w : world) : world :=
  {| file := file w; g_database := Some db |}.

(** [db.commit()] *)
Definition commit (db : tables) : world :=
  {| file := Some db; g_database := Some db |}.

(** A program that may call its [func] argument: [Call k] calls [func()]
    and goes on as [k] of what the call returned or raised. *)
Inductive io (R A : Type) : Type :=
| Ret (a : A)
| Call (k : result R -> io R A).

Arguments Ret {R A} a.
Arguments Call {R A} k.

(** Runs [p] with [func n] as the outcome of the call number [n];
    returns the result with the number of calls made so far. *)
Fixpoint run {R A : Type} (p : io R A) (func : nat -> result R)
    (calls : nat) : A * nat :=
  match p with
  | Ret a => (a, calls)
  | Call k => run (k (func calls)) func (S calls)
  end.

Section CacheGet.

(** The values of [json] and the library codecs the cache goes through. *)
Variable json : Type.
Variable json_loads : string -> result json.
Variable json_dumps : json -> string.
Variable base64_decodebytes : string -> result string.
Variable base64_encodebytes : string -> string.

(** A [requests.Response]: what [r.json()] gives, [r.content], [r.text]. *)
Record response : Type := {
  r_json : result json;
  r_content : string;
  r_text : string
}.

Inductive pyval : Type :=
| VJson (j : json)
| VBytes (b : string)
| VStr (s : string).

(** Lines 77-84: the stored text as a value of the asked type. *)
Definition decode_row (type value : string) : result pyval :=
  if String.eqb type "json" then (j <-! json_loads value; Ok (VJson j))
  else if String.eqb type "bytes" then
         (b <-! base64_decodebytes value; Ok (VBytes b))
  else if String.eqb type "str" then Ok (VStr value)
  else Raise AssertionError.

(** Lines 87-97: [value] and [value_str] from the response. *)
Definition encode_response (type : string) (r : response)
  : result (pyval * string) :=
  if String.eqb type "json" then
    (value <-! r_json r; Ok (VJson value, json_dumps value))
  else if String.eqb type "bytes" then
         Ok (VBytes (r_content r), base64_encodebytes (r_content r))
  else if String.eqb type "str" then Ok (VStr (r_text r), r_text r)
  else Raise AssertionError.

Definition cache_get (key type : string) (w : world)
  : io response (world * result pyval) :=
  if negb (String.eqb type "json" || String.eqb type "bytes")
  then Ret (w, Raise AssertionError)
  else
    let '(db, w) := get_db w in
    let row := cache db !! key in
    let db := update_stats "num_query" db in
    match row with
    | Some value =>
        let db := update_stats "num_hit" db in
        Ret (commit db, decode_row type value)
    | None =>
        Call (fun r =>
          match r with
          | Raise e => Ret (executed db w, Raise e)
          | Ok r =>
              match encode_response type r with
              | Raise e => Ret (executed db w, Raise e)
              | Ok (value, value_str) =>
                  let db := insert_cache key value_str db in
                  Ret (commit db, Ok value)
              end
          end)
    end.

(** One lookup of a request, its [func] returning or raising [outcome]
    whenever called, and the teardown of a request. *)
Inductive event : Type :=
| Lookup (key type : string) (outcome : result response)
| Teardown.

Definition step (w : world) (ev : event) : world :=
  match ev with
  | Lookup key type outcome =>
      fst (fst (run (cache_get key type w) (fun _ => outcome) 0%nat))
  | Teardown => close_connection w
  end.

Definition steps (w : world) (evs : list event) : world :=
  fold_left step evs w.

End CacheGet.

(** A new [cache.db] and no request running. *)
Definition initial_world : world := {| file := None; g_database := None |}.

(** ** The rest of the numeral codec and of the handlers *)

(** [enumerate(l)] *)
Definition enumerate {A : Type} (l : list A) : list (Z * A) :=
  combine (map Z.of_nat (seq 0 (length l))) l.

(** [dict(pairs)]: a later pair with the same key wins. *)
Definition dict_of (pairs : list (string * string)) : gmap string string :=
  fold_left (fun d kv => <[fst kv := snd kv]> d) pairs ∅.

Definition CHINESE_NUMBER_TO_DIGITS : gmap string string :=
  dict_of
    (combine DIGITS_TO_CHINESE_NUMBER
       (map PyStr.str
          (map Z.of_nat (seq 0 (length DIGITS_TO_CHINESE_NUMBER))))).

(** The marker ['第{}季'.format(chinese)] and its replacement
    ['第{:02d}季'.format(digit)]. *)
Definition chinese_marker (chinese : string) : string :=
  ("第" ++ chinese ++ "季")%string.

Definition digit_marker (digit : Z) : string :=
  ("第" ++ PyStr.format_02d digit ++ "季")%string.

Definition replace_chinese_season_number (title : string) : string :=
  fold_left
    (fun title dc =>
       PyStr.replace_str (chinese_marker (snd dc)) (digit_marker (fst dc)) title)
    (enumerate DIGITS_TO_CHINESE_NUMBER) title.

(** The keys under which the three handlers call [cache_get]. *)
Definition search_key (title : string) : string := ("search:" ++ title)%string.

Definition subject_key (subject_id : Z) : string :=
  ("subject:" ++ PyStr.str subject_id)%string.

Definition image_key (url : string) : string := ("image:" ++ url)%string.

(** ** Vocabulary of the properties *)

(** *** Characters and tokens *)

Section Chars.

Variable P : ascii -> bool.

(** [P] holds of every character of [s]. *)
Fixpoint all_chars (s : string) : bool :=
  match s with
  | EmptyString => true
  | String c r => P c && all_chars r
  end.

End Chars.

(** A group [[0-9]+] of a match. *)
Definition digit_group (s : string) : Prop :=
  all_chars PyStr.is_digit s = true /\ s <> EmptyString.

(** [c] is left alone by [str.lower]. *)
Definition lowfix (c : ascii) : bool := Ascii.eqb (PyStr.lower_char c) c.

Definition not_dot (c : ascii) : bool := negb (Ascii.eqb c ".").

Definition not_space (c : ascii) : bool := negb (PyStr.is_space c).

(** A character of a token of the title. *)
Definition title_char (c : ascii) : bool :=
  (lowfix c && not_dot c) && not_space c.

(** A token of the title: not empty and made of such characters. *)
Definition title_token (t : string) : Prop :=
  PyStr.is_empty t = false /\ all_chars title_char t = true.

(** *** Occurrences *)

(** [pat] occurs in [s]. *)
Definition occurs (pat s : string) : Prop :=
  exists pre post, s = (pre ++ pat ++ post)%string.

(** *** Ranking *)

Section Ranking.

Context {value : Type} (int : value -> result Z).

(** The candidates the year test keeps, in the order of the answer. *)
Definition year_filtered (year : option Z) (l : list (subject value))
  : list (subject value) :=
  List.filter (year_compatible int year) l.

(** The test of line 223 for a given marker. *)
Definition has_marker (marker : string) (s : subject value) : bool :=
  PyStr.contains marker (subject_title s).

Definition front_partition (marker : string) (l : list (subject value))
  : list (subject value) :=
  List.filter (has_marker marker) l.

Definition back_partition (marker : string) (l : list (subject value))
  : list (subject value) :=
  List.filter (fun s => negb (has_marker marker s)) l.

(** The stable partition of the specification: the front partition and
    then the back partition, both in the order of [l]. *)
Definition stable_partition (marker : string) (l : list (subject value))
  : list (subject value) :=
  (front_partition marker l ++ back_partition marker l)%list.

End Ranking.

(** The year of a candidate in the examples: JSON text, a JSON integer or
    [null], and [int] on each. *)
Inductive year_value : Type :=
| YearText (s : string)
| YearNumber (n : Z)
| YearNull.

Definition int_of_year_value (v : year_value) : result Z :=
  match v with
  | YearText s => PyStr.int s
  | YearNumber n => Ok n
  | YearNull => Raise TypeError
  end.

(** *** The cache *)

(** What is committed to the file, and what a lookup reads: the tables of
    the connection [get_db] hands out. *)
Definition committed (w : world) : tables := default new_tables (file w).

Definition connection_view (w : world) : tables := fst (get_db w).

(** [key] is stored with text [value], in the file and for the open
    connection if there is one. *)
Definition stored (key value : string) (w : world) : Prop :=
  (exists t, file w = Some t /\ cache t !! key = Some value) /\
  (forall db, g_database w = Some db -> cache db !! key = Some value).

(** *** An instance of the codecs

    [cache_get] is run below with RFC 2045 base64 in lines of 76
    characters, as [base64.encodebytes] writes it, and with JSON either
    written and parsed ([Json]) or kept as its text. *)

Module Base64.

Definition b64_char (n : N) : ascii :=
  (if n <? 26 then ascii_of_N (65 + n)
   else if n <? 52 then ascii_of_N (97 + (n - 26))
   else if n <? 62 then ascii_of_N (48 + (n - 52))
   else if n =? 62 then "+"%char else "/"%char)%N.

Definition b64_val (c : ascii) : option N :=
  (let n := PyStr.code c in
   if PyStr.between 65 90 c then Some (n - 65)
   else if PyStr.between 97 122 c then Some (n - 97 + 26)
   else if PyStr.between 48 57 c then Some (n - 48 + 52)
   else if n =? 43 then Some 62
   else if n =? 47 then Some 63
   else None)%N.

Definition chars (l : list N) : string :=
  fold_right (fun n s => String (b64_char n) s) EmptyString l.

(** Three bytes to four characters, the last group padded with [=]. *)
Fixpoint b2a (s : string) : string :=
  (match s with
   | EmptyString => EmptyString
   | String a EmptyString =>
       let x := PyStr.code a in
       chars [x / 4; (x mod 4) * 16] ++ "=="
   | String a (String b EmptyString) =>
       let x := PyStr.code a in
       let y := PyStr.code b in
       chars [x / 4; (x mod 4) * 16 + y / 16; (y mod 16) * 4] ++ "="
   | String a (String b (String c r)) =>
       let x := PyStr.code a in
       let y := PyStr.code b in
       let z := PyStr.code c in
       chars [x / 4; (x mod 4) * 16 + y / 16; (y mod 16) * 4 + z / 64; z mod 64]
       ++ b2a r
   end)%N%string.

(** A newline after every 76 characters and at the end. *)
Fixpoint wrap (col : nat) (s : string) : string :=
  match s with
  | EmptyString =>
      if Nat.eqb col 0 then EmptyString else String "010" EmptyString
  | String c r =>
      if Nat.eqb col 76 then String "010" (String c (wrap 1 r))
      else String c (wrap (S col) r)
  end.

Definition encodebytes (s : string) : string := wrap 0 (b2a s).

Inductive sym : Type :=
| Sextet (n : N)
| Pad.

(** The characters of the alphabet and the padding; the rest is skipped. *)
Fixpoint syms (s : string) : list sym :=
  match s with
  | EmptyString => []
  | String c r =>
      match b64_val c with
      | Some n => Sextet n :: syms r
      | None => if Ascii.eqb c "=" then Pad :: syms r else syms r
      end
  end.

Definition bytes (l : list N) : string :=
  fold_right (fun n s => String (ascii_of_N n) s) EmptyString l.

Fixpoint a2b (l : list sym) : result string :=
  (match l with
   | [] => Ok EmptyString
   | [Sextet a; Sextet b; Pad; Pad] => Ok (bytes [a * 4 + b / 16])
   | [Sextet a; Sextet b; Sextet c; Pad] =>
       Ok (bytes [a * 4 + b / 16; (b mod 16) * 16 + c / 4])
   | Sextet a :: Sextet b :: Sextet c :: Sextet d :: r =>
       rest <-! a2b r;
       Ok (bytes [a * 4 + b / 16; (b mod 16) * 16 + c / 4; (c mod 4) * 64 + d]
           ++ rest)%string
   | _ => Raise ValueError
   end)%N.

Definition decodebytes (s : string) : result string := a2b (syms s).

End Base64.

(** JSON documents of objects, arrays, text without control characters,
    integers, [true], [false] and [null].  [dumps] lays a document out
    with an indent of two as [json.dumps(_, indent=2)] does, [loads]
    parses JSON text and fails with [ValueError]. *)
Module Json.

Local Unset Elimination Schemes.

Inductive doc : Type :=
| Null
| Bool (b : bool)
| Number (n : Z)
| Text (s : string)
| Array (items : list doc)
| Object (members : list (string * doc)).

Local Set Elimination Schemes.

Definition quote : ascii := "034"%char.

Definition backslash : ascii := "092"%char.

Definition newline : ascii := "010"%char.

(** A backslash before a quote and before a backslash. *)
Fixpoint escape (s : string) : string :=
  match s with
  | EmptyString => EmptyString
  | String c r =>
      if Ascii.eqb c quote || Ascii.eqb c backslash
      then String backslash (String c (escape r))
      else String c (escape r)
  end.

Definition quoted (s : string) : string :=
  String quote (escape s ++ String quote EmptyString).

Fixpoint spaces (n : nat) : string :=
  match n with
  | O => EmptyString
  | S n => String " " (spaces n)
  end.

(** A new line at the given depth. *)
Definition line (level : nat) : string :=
  String newline (spaces (2 * level)).

Fixpoint dump (level : nat) (d : doc) {struct d} : string :=
  match d with
  | Null => "null"
  | Bool b => if b then "true" else "false"
  | Number n => PyStr.str n
  | Text s => quoted s
  | Array [] => "[]"
  | Array (x :: items) =>
      "[" ++ line (S level) ++ dump (S level) x
      ++ (fix rest (items : list doc) : string :=
            match items with
            | [] => EmptyString
            | y :: items =>
                "," ++ line (S level) ++ dump (S level) y ++ rest items
            end) items
      ++ line level ++ "]"
  | Object [] => "{}"
  | Object (kx :: members) =>
      "{" ++ line (S level) ++ quoted (fst kx) ++ ": " ++ dump (S level) (snd kx)
      ++ (fix rest (members : list (string * doc)) : string :=
            match members with
            | [] => EmptyString
            | ky :: members =>
                "," ++ line (S level) ++ quoted (fst ky) ++ ": "
                ++ dump (S level) (snd ky) ++ rest members
            end) members
      ++ line level ++ "}"
  end.

Definition dumps (d : doc) : string := dump 0 d.

Definition is_blank (c : ascii) : bool :=
  Ascii.eqb c " " || Ascii.eqb c newline
  || Ascii.eqb c "013"%char || Ascii.eqb c "009"%char.

Fixpoint skip (s : string) : string :=
  match s with
  | String c r => if is_blank c then skip r else s
  | EmptyString => s
  end.

(** [s] without the word [p] it begins with. *)
Fixpoint after (p s : string) : option string :=
  match p with
  | EmptyString => Some s
  | String a p =>
      match s with
      | String b s => if Ascii.eqb a b then after p s else None
      | EmptyString => None
      end
  end.

(** The text up to the closing quote, and what follows the quote. *)
Fixpoint text (s : string) : option (string * string) :=
  match s with
  | EmptyString => None
  | String c r =>
      if Ascii.eqb c quote then Some (EmptyString, r)
      else if Ascii.eqb c backslash then
        match r with
        | String e r =>
            if Ascii.eqb e quote || Ascii.eqb e backslash then
              match text r with
              | Some (t, r) => Some (String e t, r)
              | None => None
              end
            else None
        | EmptyString => None
        end
      else
        match text r with
        | Some (t, r) => Some (String c t, r)
        | None => None
        end
  end.

(** The digits [s] begins with, and the rest. *)
Fixpoint digits (s : string) : string * string :=
  match s with
  | String c r =>
      if PyStr.is_digit c
      then let '(d, r) := digits r in (String c d, r)
      else (EmptyString, s)
  | EmptyString => (EmptyString, s)
  end.

Definition number (s : string) : option (doc * string) :=
  let '(sign, s) := match s with
                    | String c r =>
                        if Ascii.eqb c "-" then ("-", r) else (EmptyString, s)
                    | EmptyString => (EmptyString, s)
                    end in
  let '(d, r) := digits s in
  if PyStr.is_empty d then None
  else match PyStr.int (sign ++ d) with
       | Ok n => Some (Number n, r)
       | Raise _ => None
       end.

Fixpoint value (fuel : nat) (s : string) : option (doc * string) :=
  match fuel with
  | O => None
  | S fuel =>
      match skip s with
      | EmptyString => None
      | String c r =>
          if Ascii.eqb c "n" then option_map (pair Null) (after "ull" r)
          else if Ascii.eqb c "t" then
            option_map (pair (Bool true)) (after "rue" r)
          else if Ascii.eqb c "f" then
            option_map (pair (Bool false)) (after "alse" r)
          else if Ascii.eqb c quote then
            match text r with
            | Some (t, r) => Some (Text t, r)
            | None => None
            end
          else if Ascii.eqb c "[" then
            match after "]" (skip r) with
            | Some r => Some (Array [], r)
            | None =>
                match items fuel r with
                | Some (l, r) => Some (Array l, r)
                | None => None
                end
            end
          else if Ascii.eqb c "{" then
            match after "}" (skip r) with
            | Some r => Some (Object [], r)
            | None =>
                match members fuel r with
                | Some (l, r) => Some (Object l, r)
                | None => None
                end
            end
          else number (String c r)
      end
  end
with items (fuel : nat) (s : string) : option (list doc * string) :=
  match fuel with
  | O => None
  | S fuel =>
      match value fuel s with
      | Some (x, r) =>
          match skip r with
          | String c r =>
              if Ascii.eqb c "," then
                match items fuel r with
                | Some (l, r) => Some (x :: l, r)
                | None => None
                end
              else if Ascii.eqb c "]" then Some ([x], r)
              else None
          | EmptyString => None
          end
      | None => None
      end
  end
with members (fuel : nat) (s : string)
  : option (list (string * doc) * string) :=
  match fuel with
  | O => None
  | S fuel =>
      match after (String quote EmptyString) (skip s) with
      | Some r =>
          match text r with
          | Some (k, r) =>
              match after ":" (skip r) with
              | Some r =>
                  match value fuel r with
                  | Some (x, r) =>
                      match skip r with
                      | String c r =>
                          if Ascii.eqb c "," then
                            match members fuel r with
                            | Some (l, r) => Some ((k, x) :: l, r)
                            | None => None
                            end
                          else if Ascii.eqb c "}" then Some ([(k, x)], r)
                          else None
                      | EmptyString => None
                      end
                  | None => None
                  end
              | None => None
              end
          | None => None
          end
      | None => None
      end
  end.

Definition loads (s : string) : result doc :=
  match value (2 * String.length s + 2) s with
  | Some (d, r) =>
      if PyStr.is_empty (skip r) then Ok d else Raise ValueError
  | None => Raise ValueError
  end.

End Json.

(** The answer of the catalogue to a search with one candidate. *)
Definition sense8_doc : Json.doc :=
  Json.Object
    [ ("count", Json.Number 1);
      ("subjects",
       Json.Array
         [ Json.Object
             [ ("id", Json.Text "26797690");
               ("title", Json.Text "Sense8");
               ("year", Json.Text "2015") ] ]) ].

Definition sense8_response : response Json.doc :=
  {| r_json := Ok sense8_doc; r_content := EmptyString;
     r_text := EmptyString |}.

(** JSON documents kept as their text: loading and dumping change
    nothing. *)
Definition text_loads (s : string) : result string := Ok s.

Definition text_dumps (s : string) : string := s.

(** The answer to a download of six bytes. *)
Definition gif_response : response string :=
  {| r_json := Raise ValueError; r_content := "GIF89a"; r_text := "GIF89a" |}.

(** The entries of [m] are in the file and, if a connection is open, in
    what it sees. *)
Definition kept (m : gmap string string) (w : world) : Prop :=
  m ⊆ cache (committed w) /\
  (forall db, g_database w = Some db -> m ⊆ cache db).

(** A file whose [stats] table has its two rows, and no request
    running. *)
Definition seeded_world : world :=
  {| file := Some {| cache := ∅;
                     stats := <["num_query" := 5]> (<["num_hit" := 2]> ∅) |};
     g_database := None |}.

(** A file whose [stats] table has its two rows and whose [cache] table
    has one entry, and no request running. *)
Definition counted_world : world :=
  {| file := Some {| cache := <["search:sense8" := "{}"]> ∅;
                     stats := <["num_query" := 5]> (<["num_hit" := 2]> ∅) |};
     g_database := None |}.

(** A file with one entry, and no request running. *)
Definition one_entry_world : world :=
  {| file := Some {| cache := <["search:sense8" := "{}"]> ∅; stats := ∅ |};
     g_database := None |}.

(** [p] and [q] differ at a place both have. *)
Fixpoint mismatch (p q : string) : bool :=
  match p, q with
  | String a p', String b q' => if Ascii.eqb a b then mismatch p' q' else true
  | _, _ => false
  end.

(** [pat] and [new] begin with the same character, which neither has
    again, and differ further on: [pat] cannot begin in or at a [new]. *)
Definition apart (pat new : string) : bool :=
  match pat, new with
  | String h pt, String h' nt =>
      Ascii.eqb h h'
      && all_chars (fun c => negb (Ascii.eqb c h)) pt
      && all_chars (fun c => negb (Ascii.eqb c h)) nt
      && mismatch pat new
  | _, _ => false
  end.

(** The markers the loop looks for. *)
Definition chinese_markers : list string :=
  map chinese_marker DIGITS_TO_CHINESE_NUMBER.

(** One turn of the loop of [replace_chinese_season_number]. *)
Definition rewrite_step (title : string) (dc : Z * string) : string :=
  PyStr.replace_str (chinese_marker (snd dc)) (digit_marker (fst dc)) title.

(** * Properties *)

Local Open Scope list_scope.

(** ** FilenameNormalizer *)

Lemma digit_not_space c :
  PyStr.is_digit c = true -> PyStr.is_int_space c = false.
Proof.
  destruct c as [[] [] [] [] [] [] [] []]; vm_compute; congruence.
Qed.

Lemma digit_val_range c : PyStr.is_digit c = true -> 0 <= PyStr.digit_val c <= 9.
Proof.
  destruct c as [[] [] [] [] [] [] [] []]; vm_compute; intuition congruence.
Qed.

Lemma digit_not_sign c :
  PyStr.is_digit c = true -> c <> "+"%char /\ c <> "-"%char.
Proof.
  destruct c as [[] [] [] [] [] [] [] []]; vm_compute; intuition congruence.
Qed.

Lemma lstrip_nonspace sp c r :
  sp c = false -> PyStr.lstrip_by sp (String c r) = String c r.
Proof. intros H. simpl. now rewrite H. Qed.

Lemma rstrip_no_space sp s :
  all_chars (fun c => negb (sp c)) s = true -> PyStr.rstrip_by sp s = s.
Proof.
  induction s as [|c r IH]; simpl; [reflexivity|].
  intros H. apply andb_prop in H as [Hc Hr].
  apply negb_true_iff in Hc. rewrite Hc, (IH Hr). reflexivity.
Qed.

Lemma all_chars_impl (P Q : ascii -> bool) s :
  (forall c, P c = true -> Q c = true) ->
  all_chars P s = true -> all_chars Q s = true.
Proof.
  intros HPQ. induction s as [|c r IH]; simpl; [reflexivity|].
  intros H. apply andb_prop in H as [Hc Hr].
  now rewrite (HPQ _ Hc), (IH Hr).
Qed.

Lemma int_body_digits s : forall acc b,
  all_chars PyStr.is_digit s = true -> 0 <= acc ->
  (b = true \/ s <> EmptyString) ->
  exists n, PyStr.int_body acc b s = Some n /\ 0 <= n.
Proof.
  induction s as [|c r IH]; intros acc b Hd Hacc Hne; simpl.
  - destruct Hne as [-> | Hne]; [eauto | congruence].
  - simpl in Hd. apply andb_prop in Hd as [Hc Hr]. rewrite Hc.
    apply IH; [assumption | | now left].
    pose proof (digit_val_range c Hc). lia.
Qed.

(** [int] never fails on a non-empty run of digits, and gives a natural
    number. *)
Lemma int_digits s :
  all_chars PyStr.is_digit s = true -> s <> EmptyString ->
  exists n, PyStr.int s = Ok n /\ 0 <= n.
Proof.
  intros Hd Hne. unfold PyStr.int.
  destruct s as [|c r]; [congruence|].
  pose proof Hd as Hd'. simpl in Hd'. apply andb_prop in Hd' as [Hc Hr].
  rewrite (lstrip_nonspace _ _ _ (digit_not_space _ Hc)).
  rewrite rstrip_no_space.
  2:{ apply (all_chars_impl PyStr.is_digit); [|exact Hd].
      intros c' Hc'. now rewrite (digit_not_space _ Hc'). }
  destruct (digit_not_sign _ Hc) as [Hp Hm].
  destruct (int_body_digits (String c r) 0 false Hd) as (n & Hn & Hpos);
    [lia | now right |].
  assert (Hbody : (let '(neg, body) :=
                     match String c r with
                     | String "+" r0 => (false, r0)
                     | String "-" r0 => (true, r0)
                     | _ => (false, String c r)
                     end in
                   match PyStr.int_body 0 false body with
                   | Some n => Ok (if neg then - n else n)
                   | None => Raise ValueError
                   end) = Ok n).
  { destruct c as [[] [] [] [] [] [] [] []]; try congruence;
      rewrite Hn; reflexivity. }
  exists n. split; [exact Hbody | exact Hpos].
Qed.

Lemma digits_all_digits s : forall d rest,
  Regex.digits s = (d, rest) -> all_chars PyStr.is_digit d = true.
Proof.
  induction s as [|c r IH]; simpl; intros d rest H.
  - now inversion H.
  - destruct (PyStr.is_digit c) eqn:Hc.
    + destruct (Regex.digits r) as [d' rest'] eqn:Hr.
      injection H as <- <-. simpl. rewrite Hc. now apply (IH d' rest').
    + now inversion H.
Qed.

Lemma is_empty_false s : PyStr.is_empty s = false -> s <> EmptyString.
Proof. destruct s; simpl; congruence. Qed.

(** The first group of a match is a non-empty run of digits, and so is the
    third when it took part. *)
Lemma match_here_groups s season g2 episode :
  Regex.match_here s = Some (season, g2, episode) ->
  digit_group season /\
  match episode with Some e => digit_group e | None => True end.
Proof.
  unfold Regex.match_here, digit_group.
  destruct s as [|c0 [|c1 r]]; try discriminate.
  { destruct c0 as [[] [] [] [] [] [] [] []]; discriminate. }
  destruct (Ascii.eqb c0 ".") eqn:E0.
  2:{ destruct c0 as [[] [] [] [] [] [] [] []]; try discriminate;
      destruct c1 as [[] [] [] [] [] [] [] []]; discriminate. }
  destruct (Ascii.eqb c1 "s") eqn:E1.
  2:{ destruct c0 as [[] [] [] [] [] [] [] []]; try discriminate;
      destruct c1 as [[] [] [] [] [] [] [] []]; discriminate. }
  apply Ascii.eqb_eq in E0, E1. subst c0 c1.
  destruct (Regex.digits r) as [d rest] eqn:Hd.
  destruct (PyStr.is_empty d) eqn:He; [discriminate|].
  pose proof (digits_all_digits _ _ _ Hd) as Hall.
  pose proof (is_empty_false _ He) as Hne.
  assert (Hplain : Some (d, @None string, @None string)
                   = Some (season, g2, episode) ->
                   (all_chars PyStr.is_digit season = true /\
                    season <> EmptyString) /\
                   match episode with
                   | Some e => all_chars PyStr.is_digit e = true /\
                               e <> EmptyString
                   | None => True
                   end).
  { intros H. inversion H; subst. auto. }
  destruct rest as [|c2 rest']; [exact Hplain|].
  destruct (Ascii.eqb c2 "e") eqn:E2.
  2:{ destruct c2 as [[] [] [] [] [] [] [] []]; try exact Hplain; discriminate. }
  apply Ascii.eqb_eq in E2. subst c2.
  destruct (Regex.digits rest') as [d2 rest2] eqn:Hd2.
  destruct (PyStr.is_empty d2) eqn:He2; [exact Hplain|].
  intros H. inversion H; subst.
  split; [auto|]. split; [eapply digits_all_digits; eauto|].
  now apply is_empty_false.
Qed.

Lemma search_from_groups s : forall i m,
  Regex.search_from i s = Some m ->
  exists s', Regex.match_here s' = Some (m_groups m).
Proof.
  induction s as [|c r IH]; intros i m H.
  - simpl in H. discriminate.
  - cbn [Regex.search_from] in H.
    destruct (Regex.match_here (String c r)) as [g|] eqn:Hm.
    + inversion H; subst. simpl. eauto.
    + eapply IH; eauto.
Qed.

Lemma season_episode_end_ok name :
  exists season episode end_,
    season_episode_end name = Ok (season, episode, end_) /\
    match season with Some s => 0 <= s | None => episode = None end /\
    match episode with Some e => 0 <= e | None => True end.
Proof.
  unfold season_episode_end.
  destruct (REGEX_SEASON_EPISODE_search name) as [m|] eqn:Hs.
  2:{ do 3 eexists. split; [reflexivity|]. split; reflexivity || exact I. }
  destruct (search_from_groups _ _ _ Hs) as [s' Hm].
  destruct (m_groups m) as [[season g2] episode].
  destruct (match_here_groups _ _ _ _ Hm) as [[Hsd Hsn] Hep].
  destruct (int_digits _ Hsd Hsn) as (n & Hn & Hpos).
  rewrite Hn. cbn [rbind].
  destruct episode as [e|].
  - destruct Hep as [Hed Hen].
    destruct (int_digits _ Hed Hen) as (k & Hk & Hkpos).
    destruct e as [|c r]; [congruence|].
    cbn [PyStr.is_empty]. rewrite Hk. cbn [rbind].
    do 3 eexists. split; [reflexivity|]. split; assumption.
  - cbn [rbind]. do 3 eexists. split; [reflexivity|]. split; [assumption|exact I].
Qed.

(** C9.  [get_title_from_filename] returns for every filename, and in what
    it returns an episode comes only with a season, and a season or an
    episode that is present is a non-negative integer. *)
Theorem episode_present_implies_season_present (filename : string) :
  exists title year season episode,
    get_title_from_filename filename = Ok (title, year, season, episode) /\
    match episode with
    | Some e => 0 <= e /\ exists s, season = Some s
    | None => True
    end /\
    match season with
    | Some s => 0 <= s
    | None => True
    end.
Proof.
  unfold get_title_from_filename.
  set (name := PyStr.replace " " "." (PyStr.lower filename)).
  destruct (season_episode_end_ok name)
    as (season & episode & end_ & Hsem & Hseason & Hepisode).
  rewrite Hsem. cbn [rbind].
  destruct (title_and_year name (clear_suffix_end name end_)) as [title year].
  exists title, year, season, episode. split; [reflexivity|].
  destruct season as [s|].
  - split; [|assumption]. destruct episode as [e|]; [|exact I]. eauto.
  - subst episode. split; exact I.
Qed.

(** C8.  The literal examples of the docstring. *)
Theorem get_title_from_filename_examples :
  get_title_from_filename
    "Kingsman.The.Secret.Service.2014.UNRATED.720p.BluRay.DD5.1.x264-PuTao"
  = Ok ("kingsman the secret service", Some 2014, None, None)
  /\ get_title_from_filename
       "Sense8.S00E02.Amor.Vincit.Omnia.1080p.NF.WEB-DL.DD5.1.x264-NTb.mkv"
     = Ok ("sense8", None, Some 0, Some 2)
  /\ get_title_from_filename "" = Ok ("", None, None, None).
Proof. repeat split; vm_compute; reflexivity. Qed.

(** C1.  A last token that is an integer outside 1900-2100 stays in the
    title, and is returned as the year all the same: line 193 guards the
    removal of the token only. *)
Theorem out_of_range_year_is_returned :
  get_title_from_filename "Fahrenheit.451.720p"
  = Ok ("fahrenheit 451", Some 451, None, None).
Proof. vm_compute. reflexivity. Qed.

(** ** ResultRanker *)

Section RankerProperties.

Context {value : Type} (int : value -> result Z).

Lemma rank_loop_no_season year : forall rest subjects,
  rank_loop int year None subjects rest
  = Ok (subjects ++ year_filtered int year rest).
Proof.
  unfold year_filtered.
  induction rest as [|s rest IH]; intros subjects; simpl.
  - now rewrite app_nil_r.
  - destruct (year_compatible int year s); simpl.
    + rewrite IH, <- app_assoc. reflexivity.
    + apply IH.
Qed.

Lemma rank_loop_marker year season marker :
  str_chinese_season season = Ok marker ->
  forall rest subjects,
    rank_loop int year (Some season) subjects rest
    = Ok (rev (front_partition marker (year_filtered int year rest))
            ++ subjects
            ++ back_partition marker (year_filtered int year rest)).
Proof.
  intros Hm. unfold front_partition, back_partition, year_filtered.
  induction rest as [|s rest IH]; intros subjects; simpl.
  - now rewrite app_nil_r.
  - destruct (year_compatible int year s); simpl; [|apply IH].
    rewrite Hm. cbn [rbind]. fold (has_marker marker s).
    destruct (has_marker marker s); simpl; rewrite IH.
    + rewrite <- !app_assoc. reflexivity.
    + rewrite <- !app_assoc. reflexivity.
Qed.

Lemma rank_loop_no_marker year season e :
  str_chinese_season season = Raise e ->
  forall rest subjects,
    rank_loop int year (Some season) subjects rest
    = match year_filtered int year rest with
      | [] => Ok subjects
      | _ :: _ => Raise e
      end.
Proof.
  intros Hm. unfold year_filtered.
  induction rest as [|s rest IH]; intros subjects; simpl; [reflexivity|].
  destruct (year_compatible int year s); simpl; [|apply IH].
  rewrite Hm. reflexivity.
Qed.

(** The test of line 218 fails exactly when both years are there and
    differ by more than one. *)
Lemma year_compatible_false year s :
  year_compatible int year s = false <->
  exists subject_year y,
    subject_year_int int s = Some subject_year /\ year = Some y /\
    1 < Z.abs (subject_year - y).
Proof.
  unfold year_compatible.
  destruct (subject_year_int int s) as [sy|], year as [y|]; split.
  - intros H. exists sy, y. repeat split. lia.
  - intros (sy' & y' & Hsy & Hy & Hd). injection Hsy as <-. injection Hy as <-.
    lia.
  - discriminate.
  - intros (sy' & y' & _ & Hy & _). discriminate.
  - discriminate.
  - intros (sy' & y' & Hsy & _). discriminate.
  - discriminate.
  - intros (sy' & y' & Hsy & _). discriminate.
Qed.

(** [subject_year_int] gives a number exactly when the candidate has a
    year and [int] returns on it. *)
Lemma subject_year_int_some s n :
  subject_year_int int s = Some n <->
  exists v, subject_year s = Some v /\ int v = Ok n.
Proof.
  unfold subject_year_int. destruct (subject_year s) as [v|].
  - destruct (int v) as [m|e] eqn:Hv; split.
    + intros H. injection H as <-. now exists v.
    + intros (v' & Hv' & Hn). injection Hv' as <-. congruence.
    + discriminate.
    + intros (v' & Hv' & Hn). injection Hv' as <-. congruence.
  - split; [discriminate|]. intros (v & Hv & _). discriminate.
Qed.

Lemma front_back_permutation marker (l : list (subject value)) :
  Permutation (rev (front_partition marker l) ++ back_partition marker l) l.
Proof.
  unfold front_partition, back_partition.
  rewrite <- Permutation_rev.
  induction l as [|s l IH]; simpl; [constructor|].
  destruct (has_marker marker s); simpl.
  - now constructor.
  - rewrite <- Permutation_middle. now constructor.
Qed.

End RankerProperties.

Lemma str_chinese_season_in_table season :
  0 <= season <= 19 -> exists marker, str_chinese_season season = Ok marker.
Proof.
  intros H.
  assert (Hs : In season (map Z.of_nat (seq 0 20))).
  { apply in_map_iff. exists (Z.to_nat season). split; [lia|].
    apply in_seq. lia. }
  simpl in Hs.
  repeat (destruct Hs as [<- | Hs]; [eexists; vm_compute; reflexivity|]).
  destruct Hs.
Qed.

(** The marker of a season of the table, written out. *)
Lemma str_chinese_season_marker season :
  0 <= season <= 19 ->
  exists chinese,
    nth_error DIGITS_TO_CHINESE_NUMBER (Z.to_nat season) = Some chinese /\
    str_chinese_season season = Ok ("第" ++ chinese ++ "季")%string.
Proof.
  intros H.
  assert (Hs : In season (map Z.of_nat (seq 0 20))).
  { apply in_map_iff. exists (Z.to_nat season). split; [lia|].
    apply in_seq. lia. }
  simpl in Hs.
  repeat (destruct Hs as [<- | Hs];
          [eexists; split; vm_compute; reflexivity|]).
  destruct Hs.
Qed.

Lemma str_chinese_season_beyond_table season :
  20 <= season -> str_chinese_season season = Raise IndexError.
Proof.
  intros H. unfold str_chinese_season, py_index.
  change (Z.of_nat (length DIGITS_TO_CHINESE_NUMBER)) with 20.
  destruct (season <? 0) eqn:Hneg; [lia|].
  destruct (season <? 20) eqn:Hlt; [lia|].
  rewrite andb_false_r. reflexivity.
Qed.

(** C2 (as amended).  With a season [n] of 0..19 the marker is the text
    [第], the [n]-th numeral of the table and [季]; the loop returns the
    candidates the year test keeps whose title has that marker, latest
    first, and then the other candidates it keeps, in the order of the
    answer. *)
Theorem season_partition_front_reversed {value : Type}
    (int : value -> result Z) (subjects : list (subject value))
    (year : option Z) (season : Z) :
  0 <= season <= 19 ->
  exists chinese,
    nth_error DIGITS_TO_CHINESE_NUMBER (Z.to_nat season) = Some chinese /\
    GetSearchResults_subjects int subjects year (Some season)
    = Ok (rev (front_partition ("第" ++ chinese ++ "季")
                 (year_filtered int year subjects))
            ++ back_partition ("第" ++ chinese ++ "季")
                 (year_filtered int year subjects)).
Proof.
  intros Hs.
  destruct (str_chinese_season_marker season Hs) as (chinese & Hn & Hm).
  exists chinese. split; [exact Hn|].
  unfold GetSearchResults_subjects.
  rewrite (rank_loop_marker int year season _ Hm).
  reflexivity.
Qed.

(** Two candidates of the first season, one of 2008 and one without the
    marker: the later of the two comes first, the one of 2008 is
    dropped. *)
Lemma season_partition_front_reversed_witness :
  0 <= 1 <= 19 /\
  let a := {| subject_id := "1"; subject_title := "纸牌屋 第一季";
              subject_year := Some (YearText "2013") |} in
  let c := {| subject_id := "2"; subject_title := "纸牌屋";
              subject_year := None |} in
  let d := {| subject_id := "3"; subject_title := "绝望主妇 第一季";
              subject_year := Some (YearText "2004") |} in
  let b := {| subject_id := "4"; subject_title := "无耻之徒 第一季";
              subject_year := Some (YearNumber 2014) |} in
  GetSearchResults_subjects int_of_year_value [a; c; d; b] (Some 2013) (Some 1)
  = Ok [b; a; c].
Proof.
  split; [lia|]. cbv zeta.
  destruct (season_partition_front_reversed int_of_year_value
              [ {| subject_id := "1"; subject_title := "纸牌屋 第一季";
                   subject_year := Some (YearText "2013") |};
                {| subject_id := "2"; subject_title := "纸牌屋";
                   subject_year := None |};
                {| subject_id := "3"; subject_title := "绝望主妇 第一季";
                   subject_year := Some (YearText "2004") |};
                {| subject_id := "4"; subject_title := "无耻之徒 第一季";
                   subject_year := Some (YearNumber 2014) |} ]
              (Some 2013) 1) as (chinese & Hn & Hr); [lia|].
  vm_compute in Hn. injection Hn as <-.
  rewrite Hr. vm_compute. reflexivity.
Defined.

(** C2 (as stated) fails: two candidates of the first season come back
    in the opposite order, which is not the stable partition. *)
Lemma season_partition_not_stable :
  let a := {| subject_id := "1"; subject_title := "纸牌屋 第一季";
              subject_year := None |} in
  let b := {| subject_id := "2"; subject_title := "无耻之徒 第一季";
              subject_year := None |} in
  GetSearchResults_subjects int_of_year_value [a; b] None (Some 1)
  = Ok [b; a] /\
  stable_partition "第一季" (year_filtered int_of_year_value None [a; b])
  = [a; b] /\
  GetSearchResults_subjects int_of_year_value [a; b] None (Some 1)
  <> Ok (stable_partition "第一季"
           (year_filtered int_of_year_value None [a; b])).
Proof.
  cbv zeta. split; [vm_compute; reflexivity|].
  split; [vm_compute; reflexivity|].
  vm_compute. intros H. discriminate H.
Qed.

(** C7.  A candidate is dropped exactly when it has a year on which
    [int] returns, the target year is present and the two differ by more
    than one; a candidate without a year, or with a year on which [int]
    raises, is kept.  The loop returns the candidates that are not
    dropped: all of them in the order of the answer when there is no
    season, and the same candidates reordered when there is a season of
    0..19. *)
Theorem year_filter_drops_iff_years_differ_by_more_than_one {value : Type}
    (int : value -> result Z) (subjects : list (subject value))
    (year : option Z) :
  (forall s,
     year_compatible int year s = false <->
     exists v n y,
       subject_year s = Some v /\ int v = Ok n /\ year = Some y /\
       (y < n - 1 \/ n + 1 < y))
  /\ (forall s,
        subject_year s = None \/
        (exists v e, subject_year s = Some v /\ int v = Raise e) \/
        year = None ->
        year_compatible int year s = true)
  /\ GetSearchResults_subjects int subjects year None
     = Ok (List.filter (year_compatible int year) subjects)
  /\ forall season,
       0 <= season <= 19 ->
       exists ranked,
         GetSearchResults_subjects int subjects year (Some season) = Ok ranked /\
         Permutation ranked (List.filter (year_compatible int year) subjects).
Proof.
  assert (Hdrop : forall s,
     year_compatible int year s = false <->
     exists v n y,
       subject_year s = Some v /\ int v = Ok n /\ year = Some y /\
       (y < n - 1 \/ n + 1 < y)).
  { intros s. rewrite year_compatible_false. split.
    - intros (sy & y & Hsy & Hy & Hd).
      apply subject_year_int_some in Hsy as (v & Hv & Hi).
      exists v, sy, y. repeat split; try assumption. lia.
    - intros (v & sy & y & Hv & Hi & Hy & Hd). exists sy, y.
      split; [apply subject_year_int_some; now exists v|].
      split; [exact Hy|lia]. }
  split; [exact Hdrop|]. split; [|split].
  - intros s H. destruct (year_compatible int year s) eqn:Hc; [reflexivity|].
    apply Hdrop in Hc as (v & sy & y & Hv & Hi & Hy & _).
    destruct H as [H | [(v' & e & Hv' & He) | H]]; congruence.
  - unfold GetSearchResults_subjects. now rewrite rank_loop_no_season.
  - intros season Hs.
    destruct (str_chinese_season_in_table season Hs) as [marker Hm].
    unfold GetSearchResults_subjects.
    rewrite (rank_loop_marker int year season marker Hm). eexists.
    split; [reflexivity|]. apply front_back_permutation.
Qed.

(** An answer whose years are text, numbers, [null] or missing, for a
    file of 2014: the candidates of 2000 and of 2016 are dropped, whether
    their year is text or a number. *)
Example year_filter_on_mixed_years :
  let candidate id year :=
    {| subject_id := id; subject_title := "超感猎杀"; subject_year := year |} in
  GetSearchResults_subjects int_of_year_value
    [ candidate "1" (Some (YearText "2013"));
      candidate "2" (Some (YearNumber 2000));
      candidate "3" (Some (YearText "二〇一四"));
      candidate "4" (Some YearNull);
      candidate "5" None;
      candidate "6" (Some (YearNumber 2015));
      candidate "7" (Some (YearText "2016")) ]
    (Some 2014) None
  = Ok [ candidate "1" (Some (YearText "2013"));
         candidate "3" (Some (YearText "二〇一四"));
         candidate "4" (Some YearNull);
         candidate "5" None;
         candidate "6" (Some (YearNumber 2015)) ].
Proof. vm_compute. reflexivity. Qed.

(** C10 (as amended).  The numeral table has the twenty entries 0..19.
    With a season of 20 or more the marker cannot be built, and the loop
    raises [IndexError] as soon as one candidate passes the year test;
    when none does it returns the empty list. *)
Theorem season_beyond_numeral_table {value : Type}
    (int : value -> result Z) (subjects : list (subject value))
    (year : option Z) (season : Z) :
  20 <= season ->
  length DIGITS_TO_CHINESE_NUMBER = 20%nat /\
  str_chinese_season season = Raise IndexError /\
  GetSearchResults_subjects int subjects year (Some season)
  = match List.filter (year_compatible int year) subjects with
    | [] => Ok []
    | _ :: _ => Raise IndexError
    end.
Proof.
  intros Hs. split; [reflexivity|].
  pose proof (str_chinese_season_beyond_table season Hs) as Hm.
  split; [exact Hm|].
  unfold GetSearchResults_subjects.
  now rewrite (rank_loop_no_marker int year season _ Hm).
Qed.

Lemma season_beyond_numeral_table_witness :
  20 <= 20 /\
  length DIGITS_TO_CHINESE_NUMBER = 20%nat /\
  str_chinese_season 20 = Raise IndexError /\
  GetSearchResults_subjects int_of_year_value
    [ {| subject_id := "1"; subject_title := "辛普森一家 第二十季";
         subject_year := Some (YearText "2008") |} ]
    None (Some 20)
  = match List.filter (year_compatible int_of_year_value None)
            [ {| subject_id := "1"; subject_title := "辛普森一家 第二十季";
                 subject_year := Some (YearText "2008") |} ] with
    | [] => Ok []
    | _ :: _ => Raise IndexError
    end.
Proof.
  split; [lia|]. apply season_beyond_numeral_table. lia.
Defined.

(** C10 (as stated) fails: a file name with [.s20] gives season 20, and
    with no candidate left by the year test the loop returns the empty
    list, not an [IndexError]. *)
Lemma season_beyond_table_without_candidates :
  get_title_from_filename "The.Simpsons.2008.S20E01.720p"
  = Ok ("the simpsons", Some 2008, Some 20, Some 1)
  /\ GetSearchResults_subjects int_of_year_value [] (Some 2008) (Some 20)
     = Ok []
  /\ GetSearchResults_subjects int_of_year_value [] (Some 2008) (Some 20)
     <> Raise IndexError
  /\ GetSearchResults_subjects int_of_year_value
       [ {| subject_id := "1"; subject_title := "辛普森一家 第一季";
            subject_year := Some (YearText "1989") |} ]
       (Some 2008) (Some 20) = Ok [].
Proof.
  split; [vm_compute; reflexivity|]. split; [reflexivity|].
  split; [discriminate|]. vm_compute. reflexivity.
Qed.

(** ** CacheStore *)

Section CacheProperties.

Context {json : Type}.
Variable json_loads : string -> result json.
Variable json_dumps : json -> string.
Variable base64_decodebytes : string -> result string.
Variable base64_encodebytes : string -> string.

Local Abbreviation cache_get :=
  (cache_get json json_loads json_dumps base64_decodebytes base64_encodebytes).
Local Abbreviation decode_row := (decode_row json json_loads base64_decodebytes).
Local Abbreviation encode_response :=
  (encode_response json json_dumps base64_encodebytes).
Local Abbreviation steps :=
  (steps json json_loads json_dumps base64_decodebytes base64_encodebytes).
Local Abbreviation step :=
  (step json json_loads json_dumps base64_decodebytes base64_encodebytes).
Local Abbreviation event_ := (event json).

Lemma cache_get_valid key type w :
  type = "json" \/ type = "bytes" ->
  cache_get key type w
  = let '(db, w1) := get_db w in
    let db1 := update_stats "num_query" db in
    match cache db !! key with
    | Some value =>
        Ret (commit (update_stats "num_hit" db1), decode_row type value)
    | None =>
        Call (fun r =>
          match r with
          | Raise e => Ret (executed db1 w1, Raise e)
          | Ok r =>
              match encode_response type r with
              | Raise e => Ret (executed db1 w1, Raise e)
              | Ok (value, value_str) =>
                  Ret (commit (insert_cache key value_str db1), Ok value)
              end
          end)
    end.
Proof. intros [-> | ->]; reflexivity. Qed.

Lemma cache_get_invalid key type w :
  String.eqb type "json" || String.eqb type "bytes" = false ->
  cache_get key type w = Ret (w, Raise AssertionError).
Proof. intros H. unfold cache_get. now rewrite H. Qed.

Lemma get_db_view w : get_db w = (connection_view w, snd (get_db w)).
Proof. unfold connection_view. now destruct (get_db w). Qed.

Lemma cache_get_hit key type w value :
  type = "json" \/ type = "bytes" ->
  cache (connection_view w) !! key = Some value ->
  cache_get key type w
  = Ret (commit (update_stats "num_hit"
                   (update_stats "num_query" (connection_view w))),
         decode_row type value).
Proof.
  intros Ht Hk. rewrite (cache_get_valid key type w Ht), get_db_view.
  cbv zeta. now rewrite Hk.
Qed.

Lemma cache_get_miss key type w :
  type = "json" \/ type = "bytes" ->
  cache (connection_view w) !! key = None ->
  cache_get key type w
  = Call (fun r =>
      let db1 := update_stats "num_query" (connection_view w) in
      let w1 := snd (get_db w) in
      match r with
      | Raise e => Ret (executed db1 w1, Raise e)
      | Ok r =>
          match encode_response type r with
          | Raise e => Ret (executed db1 w1, Raise e)
          | Ok (value, value_str) =>
              Ret (commit (insert_cache key value_str db1), Ok value)
          end
      end).
Proof.
  intros Ht Hk. rewrite (cache_get_valid key type w Ht), get_db_view.
  cbv zeta. now rewrite Hk.
Qed.

Lemma stored_view key value w :
  stored key value w -> cache (connection_view w) !! key = Some value.
Proof.
  intros [(t & Hf & Ht) Hc]. unfold connection_view, get_db.
  destruct (g_database w) as [db|] eqn:Hg; simpl.
  - now apply Hc.
  - now rewrite Hf.
Qed.

Lemma stored_commit key value db :
  cache db !! key = Some value -> stored key value (commit db).
Proof.
  intros H. split.
  - exists db. now split.
  - intros db' Hdb. simpl in Hdb. now injection Hdb as <-.
Qed.

Lemma stored_get_db key value w :
  stored key value w -> stored key value (snd (get_db w)).
Proof.
  intros Hs. pose proof Hs as [(t & Hf & Ht) Hc]. unfold get_db.
  destruct (g_database w) as [db|] eqn:Hg; simpl; [exact Hs|].
  rewrite Hf. simpl. split.
  - exists t. now split.
  - intros db Hdb. simpl in Hdb. now injection Hdb as <-.
Qed.

Lemma stored_executed key value db w :
  stored key value w -> cache db !! key = Some value ->
  stored key value (executed db w).
Proof.
  intros [Hf _] Hdb. split; [exact Hf|].
  intros db' H. simpl in H. now injection H as <-.
Qed.

(** No lookup and no teardown removes or changes a stored entry. *)
Lemma stored_step key value w ev :
  stored key value w -> stored key value (step w ev).
Proof.
  intros Hs. destruct ev as [key' type outcome|]; simpl.
  2:{ destruct Hs as [Hf _]. split; [exact Hf|]. intros db H. discriminate H. }
  destruct (String.eqb type "json" || String.eqb type "bytes") eqn:Ht.
  2:{ now rewrite (cache_get_invalid _ _ _ Ht). }
  assert (Hv : type = "json" \/ type = "bytes").
  { apply orb_prop in Ht as [H|H]; apply String.eqb_eq in H; auto. }
  pose proof (stored_view _ _ _ Hs) as Hview.
  destruct (cache (connection_view w) !! key') as [value'|] eqn:Hk'.
  - rewrite (cache_get_hit _ _ _ _ Hv Hk'). simpl.
    apply stored_commit. exact Hview.
  - rewrite (cache_get_miss _ _ _ Hv Hk'). simpl.
    assert (Hne : key' <> key) by congruence.
    destruct outcome as [r|e]; simpl.
    + destruct (encode_response type r) as [[v vs]|e]; simpl.
      * apply stored_commit. simpl. now rewrite lookup_insert_ne.
      * apply stored_executed; [now apply stored_get_db | exact Hview].
    + apply stored_executed; [now apply stored_get_db | exact Hview].
Qed.

Lemma stored_steps key value evs : forall w,
  stored key value w -> stored key value (steps w evs).
Proof.
  induction evs as [|ev evs IH]; intros w Hs; simpl; [exact Hs|].
  apply IH. now apply stored_step.
Qed.

Lemma insert_cache_committed key value_str db :
  cache (committed (commit (insert_cache key value_str db))) !! key
  = Some value_str.
Proof. simpl. apply lookup_insert_eq. Qed.

(** What a later lookup of [key] returns once [value_str] is stored
    under it, whatever lookups and requests came between. *)
Lemma later_lookups key type value_str w :
  type = "json" \/ type = "bytes" ->
  cache w !! key = Some value_str ->
  forall evs (func' : nat -> result (response json)) calls',
    exists w'',
      run (cache_get key type (steps (commit w) evs)) func' calls'
      = ((w'', decode_row type value_str), calls').
Proof.
  intros Ht Hk evs func' calls'.
  pose proof (stored_view _ _ _
                (stored_steps _ _ evs _ (stored_commit _ _ _ Hk))) as Hview.
  rewrite (cache_get_hit _ _ _ _ Ht Hview). simpl. eauto.
Qed.

(** C3.  A lookup of a stored key makes no call of [func] and returns
    the stored text decoded as the type asks: through [json.loads] for
    ["json"], through [base64.decodebytes] for ["bytes"].  A lookup of an
    absent key makes exactly one call; when the call returns, the value is
    returned and its text, [json.dumps] of the document or
    [base64.encodebytes] of the content, is committed under the key; every
    later lookup of the key with that type, after any number of other
    lookups and requests, makes no call and returns that text decoded,
    which is the value of the first lookup whenever the library reads
    back what it wrote. *)
Theorem cache_get_reads_through (key type : string) (w : world) :
  type = "json" \/ type = "bytes" ->
  forall (func : nat -> result (response json)) (calls : nat),
    match cache (connection_view w) !! key with
    | Some value_str =>
        exists w',
          run (cache_get key type w) func calls
          = ((w', if String.eqb type "json"
                  then match json_loads value_str with
                       | Ok j => Ok (VJson json j)
                       | Raise e => Raise e
                       end
                  else match base64_decodebytes value_str with
                       | Ok b => Ok (VBytes json b)
                       | Raise e => Raise e
                       end),
             calls)
    | None =>
        snd (run (cache_get key type w) func calls) = S calls /\
        forall r,
          func calls = Ok r ->
          (type = "json" ->
           forall j,
             r_json json r = Ok j ->
             exists w',
               run (cache_get key type w) func calls
               = ((w', Ok (VJson json j)), S calls) /\
               cache (committed w') !! key = Some (json_dumps j) /\
               forall evs func' calls',
                 exists w'',
                   run (cache_get key type (steps w' evs)) func' calls'
                   = ((w'', match json_loads (json_dumps j) with
                            | Ok j' => Ok (VJson json j')
                            | Raise e => Raise e
                            end),
                      calls') /\
                   (json_loads (json_dumps j) = Ok j ->
                    run (cache_get key type (steps w' evs)) func' calls'
                    = ((w'', Ok (VJson json j)), calls')))
          /\
          (type = "bytes" ->
           exists w',
             run (cache_get key type w) func calls
             = ((w', Ok (VBytes json (r_content json r))), S calls) /\
             cache (committed w') !! key
             = Some (base64_encodebytes (r_content json r)) /\
             forall evs func' calls',
               exists w'',
                 run (cache_get key type (steps w' evs)) func' calls'
                 = ((w'', match base64_decodebytes
                                  (base64_encodebytes (r_content json r)) with
                          | Ok b => Ok (VBytes json b)
                          | Raise e => Raise e
                          end),
                    calls') /\
                 (base64_decodebytes (base64_encodebytes (r_content json r))
                  = Ok (r_content json r) ->
                  run (cache_get key type (steps w' evs)) func' calls'
                  = ((w'', Ok (VBytes json (r_content json r))), calls')))
    end.
Proof.
  intros Ht func calls.
  destruct (cache (connection_view w) !! key) as [value_str|] eqn:Hk.
  - rewrite (cache_get_hit _ _ _ _ Ht Hk). cbn [run]. eexists. f_equal. f_equal.
    destruct Ht as [-> | ->]; reflexivity.
  - rewrite (cache_get_miss _ _ _ Ht Hk). cbn [run]. split.
    + destruct (func calls) as [r|e]; cbv zeta; [|reflexivity].
      destruct (encode_response type r) as [[v vs]|e]; reflexivity.
    + intros r Hr. rewrite Hr. cbv zeta. split.
      * intros -> j Hj.
        change (encode_response "json" r)
          with (rbind (r_json json r)
                  (fun value => Ok (VJson json value, json_dumps value))).
        rewrite Hj. cbn [rbind run]. eexists.
        split; [reflexivity|]. split; [apply insert_cache_committed|].
        intros evs func' calls'.
        destruct (later_lookups key "json" (json_dumps j)
                    (insert_cache key (json_dumps j)
                       (update_stats "num_query" (connection_view w)))
                    Ht (lookup_insert_eq _ _ _) evs func' calls')
          as [w'' Hl].
        exists w''. rewrite Hl. split; [reflexivity|].
        intros Hrt. change (decode_row "json" (json_dumps j))
          with (rbind (json_loads (json_dumps j))
                  (fun j => Ok (VJson json j))).
        now rewrite Hrt.
      * intros ->.
        change (encode_response "bytes" r)
          with (Ok (VBytes json (r_content json r),
                    base64_encodebytes (r_content json r))).
        cbn [run]. eexists.
        split; [reflexivity|]. split; [apply insert_cache_committed|].
        intros evs func' calls'.
        destruct (later_lookups key "bytes"
                    (base64_encodebytes (r_content json r))
                    (insert_cache key (base64_encodebytes (r_content json r))
                       (update_stats "num_query" (connection_view w)))
                    Ht (lookup_insert_eq _ _ _) evs func' calls')
          as [w'' Hl].
        exists w''. rewrite Hl. split; [reflexivity|].
        intros Hrt.
        change (decode_row "bytes" (base64_encodebytes (r_content json r)))
          with (rbind (base64_decodebytes
                         (base64_encodebytes (r_content json r)))
                  (fun b => Ok (VBytes json b))).
        now rewrite Hrt.
Qed.

(** C5.  When the key is absent and [func] raises, the lookup raises the
    same exception after that one call, the [cache] table is the same for
    the connection and in the file, and the next lookup of the key, in
    the same request or in a later one, calls [func] again. *)
Theorem fetch_failure_is_not_cached (key type : string) (w : world)
    (func : nat -> result (response json)) (calls : nat) (e : exn) :
  type = "json" \/ type = "bytes" ->
  cache (connection_view w) !! key = None ->
  cache (committed w) !! key = None ->
  func calls = Raise e ->
  exists w',
    run (cache_get key type w) func calls = ((w', Raise e), S calls) /\
    cache (connection_view w') = cache (connection_view w) /\
    cache (committed w') = cache (committed w) /\
    forall func' calls',
      snd (run (cache_get key type w') func' calls') = S calls' /\
      snd (run (cache_get key type (close_connection w')) func' calls')
      = S calls'.
Proof.
  intros Ht Hk Hf He.
  rewrite (cache_get_miss _ _ _ Ht Hk). cbn [run]. rewrite He. cbv zeta.
  eexists. split; [reflexivity|].
  assert (Hc : cache (committed (snd (get_db w))) = cache (committed w)).
  { unfold get_db, committed.
    destruct (g_database w); simpl; [reflexivity|].
    now destruct (file w). }
  split; [reflexivity|]. split; [exact Hc|].
  intros func' calls'.
  assert (Hmiss : forall w0, cache (connection_view w0) !! key = None ->
            snd (run (cache_get key type w0) func' calls') = S calls').
  { intros w0 H0. rewrite (cache_get_miss _ _ _ Ht H0). cbn [run].
    destruct (func' calls') as [r|e']; cbv zeta; [|reflexivity].
    destruct (encode_response type r) as [[v vs]|e']; reflexivity. }
  split; apply Hmiss.
  - exact Hk.
  - change (cache (committed (executed
              (update_stats "num_query" (connection_view w))
              (snd (get_db w)))) !! key = None).
    change (cache (committed (snd (get_db w))) !! key = None).
    now rewrite Hc.
Qed.

(** The [stats] table has no row, and [UPDATE] adds none. *)
Lemma stats_stay_empty_step w ev :
  stats (committed w) = ∅ ->
  (forall db, g_database w = Some db -> stats db = ∅) ->
  stats (committed (step w ev)) = ∅ /\
  (forall db, g_database (step w ev) = Some db -> stats db = ∅).
Proof.
  intros Hf Hc.
  assert (Hview : stats (connection_view w) = ∅).
  { unfold connection_view, get_db.
    destruct (g_database w) as [db|] eqn:Hg; simpl; [now apply Hc|exact Hf]. }
  assert (Hw1 : stats (committed (snd (get_db w))) = ∅).
  { unfold get_db. destruct (g_database w) as [db|]; simpl; [exact Hf|].
    exact Hf. }
  assert (Hup : forall k db, stats db = ∅ -> stats (update_stats k db) = ∅).
  { intros k db H. simpl. rewrite H. apply map_eq. intros i.
    rewrite lookup_alter, lookup_empty. now destruct (decide (k = i)). }
  assert (Hcommit : forall db, stats db = ∅ ->
            stats (committed (commit db)) = ∅ /\
            (forall db', g_database (commit db) = Some db' -> stats db' = ∅)).
  { intros db H. split; [exact H|]. intros db' H'. simpl in H'.
    now injection H' as <-. }
  assert (Hexec : forall db, stats db = ∅ ->
            stats (committed (executed db (snd (get_db w)))) = ∅ /\
            (forall db', g_database (executed db (snd (get_db w))) = Some db' ->
                         stats db' = ∅)).
  { intros db H. split; [exact Hw1|]. intros db' H'. simpl in H'.
    now injection H' as <-. }
  destruct ev as [key type outcome|]; simpl.
  2:{ split; [exact Hf|]. intros db H. discriminate H. }
  destruct (String.eqb type "json" || String.eqb type "bytes") eqn:Ht.
  2:{ rewrite (cache_get_invalid _ _ _ Ht). simpl. now split. }
  assert (Hv : type = "json" \/ type = "bytes").
  { apply orb_prop in Ht as [H|H]; apply String.eqb_eq in H; auto. }
  destruct (cache (connection_view w) !! key) as [value|] eqn:Hk.
  - rewrite (cache_get_hit _ _ _ _ Hv Hk). simpl fst.
    apply Hcommit. now do 2 apply Hup.
  - rewrite (cache_get_miss _ _ _ Hv Hk). cbn [run]. cbv zeta.
    destruct outcome as [r|e].
    + destruct (encode_response type r) as [[v vs]|e]; simpl fst.
      * apply Hcommit. simpl. now apply (Hup "num_query").
      * apply Hexec. now apply Hup.
    + simpl fst. apply Hexec. now apply Hup.
Qed.

(** C4.  From a new [cache.db], whatever lookups and requests follow, the
    [stats] table stays empty: [num_query] and [num_hit] have no row
    before a lookup and none after it, so neither counter goes up. *)
Theorem counters_never_seeded (evs : list event_) :
  let w := steps initial_world evs in
  stats (connection_view w) = ∅ /\
  stats (committed w) = ∅ /\
  stats (connection_view w) !! "num_query" = None /\
  stats (connection_view w) !! "num_hit" = None.
Proof.
  cbv zeta.
  assert (H : forall w,
            stats (committed w) = ∅ ->
            (forall db, g_database w = Some db -> stats db = ∅) ->
            stats (committed (steps w evs)) = ∅ /\
            (forall db, g_database (steps w evs) = Some db -> stats db = ∅)).
  { induction evs as [|ev evs IH]; intros w Hf Hc; simpl; [now split|].
    destruct (stats_stay_empty_step w ev Hf Hc) as [Hf' Hc']. now apply IH. }
  destruct (H initial_world) as [Hf Hc]; [reflexivity | discriminate |].
  assert (Hview : stats (connection_view (steps initial_world evs)) = ∅).
  { unfold connection_view, get_db.
    destruct (g_database (steps initial_world evs)) as [db|] eqn:Hg; simpl;
      [now apply Hc | exact Hf]. }
  rewrite Hview. repeat split; try exact Hf; apply lookup_empty.
Qed.

End CacheProperties.

(** ** The cache run with the codec instance *)

(** The answer to a search is written as JSON text and parsed again by
    every later lookup; a stored [{}] is read as the empty object; a
    download is written as base64 and decoded again. *)
Lemma cache_get_reads_through_witness :
  ("json" = "json" \/ "json" = "bytes") /\
  (exists w',
     run (cache_get Json.doc Json.loads Json.dumps
            Base64.decodebytes Base64.encodebytes
            "search:sense8" "json" initial_world)
         (fun _ => Ok sense8_response) 0%nat
     = ((w', Ok (VJson Json.doc sense8_doc)), 1%nat) /\
     cache (committed w') !! "search:sense8" = Some (Json.dumps sense8_doc) /\
     forall evs func' calls',
       exists w'',
         run (cache_get Json.doc Json.loads Json.dumps
                Base64.decodebytes Base64.encodebytes
                "search:sense8" "json"
                (steps Json.doc Json.loads Json.dumps
                   Base64.decodebytes Base64.encodebytes w' evs))
             func' calls'
         = ((w'', Ok (VJson Json.doc sense8_doc)), calls')) /\
  (exists w',
     run (cache_get Json.doc Json.loads Json.dumps
            Base64.decodebytes Base64.encodebytes
            "search:sense8" "json" one_entry_world)
         (fun _ => Raise (RequestException "Connection refused")) 0%nat
     = ((w', Ok (VJson Json.doc (Json.Object []))), 0%nat)) /\
  (exists w',
     run (cache_get Json.doc Json.loads Json.dumps
            Base64.decodebytes Base64.encodebytes
            "image:https://img3.doubanio.com/p.gif" "bytes" initial_world)
         (fun _ => Ok {| r_json := Raise ValueError; r_content := "GIF89a";
                         r_text := "GIF89a" |}) 0%nat
     = ((w', Ok (VBytes Json.doc "GIF89a")), 1%nat) /\
     cache (committed w') !! "image:https://img3.doubanio.com/p.gif"
     = Some (String.append "R0lGODlh" (String Json.newline EmptyString)) /\
     forall evs func' calls',
       exists w'',
         run (cache_get Json.doc Json.loads Json.dumps
                Base64.decodebytes Base64.encodebytes
                "image:https://img3.doubanio.com/p.gif" "bytes"
                (steps Json.doc Json.loads Json.dumps
                   Base64.decodebytes Base64.encodebytes w' evs))
             func' calls'
         = ((w'', Ok (VBytes Json.doc "GIF89a")), calls')).
Proof.
  split; [left; reflexivity|]. split; [|split].
  - pose proof (cache_get_reads_through Json.loads Json.dumps
                  Base64.decodebytes Base64.encodebytes
                  "search:sense8" "json" initial_world
                  (or_introl eq_refl) (fun _ => Ok sense8_response) 0%nat) as H.
    assert (Hk : cache (connection_view initial_world) !! "search:sense8"
                 = None) by apply lookup_empty.
    rewrite Hk in H. destruct H as [_ H].
    destruct (H sense8_response eq_refl) as [H' _].
    destruct (H' eq_refl sense8_doc eq_refl) as (w' & Hrun & Hfile & Hlater).
    exists w'. split; [exact Hrun|]. split; [exact Hfile|].
    intros evs func' calls'.
    destruct (Hlater evs func' calls') as (w'' & _ & Hl).
    exists w''. apply Hl. vm_compute. reflexivity.
  - pose proof (cache_get_reads_through Json.loads Json.dumps
                  Base64.decodebytes Base64.encodebytes
                  "search:sense8" "json" one_entry_world
                  (or_introl eq_refl)
                  (fun _ => Raise (RequestException "Connection refused"))
                  0%nat) as H.
    assert (Hk : cache (connection_view one_entry_world) !! "search:sense8"
                 = Some "{}") by apply lookup_insert_eq.
    rewrite Hk in H. exact H.
  - pose proof (cache_get_reads_through Json.loads Json.dumps
                  Base64.decodebytes Base64.encodebytes
                  "image:https://img3.doubanio.com/p.gif" "bytes"
                  initial_world (or_intror eq_refl)
                  (fun _ => Ok {| r_json := Raise ValueError;
                                  r_content := "GIF89a";
                                  r_text := "GIF89a" |}) 0%nat) as H.
    assert (Hk : cache (connection_view initial_world)
                   !! "image:https://img3.doubanio.com/p.gif" = None)
      by apply lookup_empty.
    rewrite Hk in H. destruct H as [_ H].
    destruct (H _ eq_refl) as [_ H'].
    destruct (H' eq_refl) as (w' & Hrun & Hfile & Hlater).
    exists w'. split; [exact Hrun|]. split; [exact Hfile|].
    intros evs func' calls'.
    destruct (Hlater evs func' calls') as (w'' & _ & Hl).
    exists w''. apply Hl. vm_compute. reflexivity.
Defined.

Lemma fetch_failure_is_not_cached_witness :
  exists w',
    run (cache_get string text_loads text_dumps
           Base64.decodebytes Base64.encodebytes
           "search:sense8" "json" initial_world)
        (fun _ => Raise (RequestException "Connection refused")) 0%nat
    = ((w', Raise (RequestException "Connection refused")), 1%nat) /\
    cache (connection_view w') = cache (connection_view initial_world) /\
    cache (committed w') = cache (committed initial_world) /\
    forall func' calls',
      snd (run (cache_get string text_loads text_dumps
                  Base64.decodebytes Base64.encodebytes
                  "search:sense8" "json" w') func' calls') = S calls' /\
      snd (run (cache_get string text_loads text_dumps
                  Base64.decodebytes Base64.encodebytes
                  "search:sense8" "json" (close_connection w')) func' calls')
      = S calls'.
Proof.
  apply (fetch_failure_is_not_cached text_loads text_dumps
           Base64.decodebytes Base64.encodebytes
           "search:sense8" "json" initial_world
           (fun _ => Raise (RequestException "Connection refused")) 0%nat
           (RequestException "Connection refused")).
  - left. reflexivity.
  - apply lookup_empty.
  - apply lookup_empty.
  - reflexivity.
Defined.

(** ** The titles [get_title_from_filename] builds *)

Lemma lower_char_idem c : lowfix (PyStr.lower_char c) = true.
Proof. destruct c as [[] [] [] [] [] [] [] []]; vm_compute; reflexivity. Qed.

Lemma all_chars_app P s t :
  all_chars P (s ++ t)%string = all_chars P s && all_chars P t.
Proof.
  induction s as [|c r IH]; simpl; [reflexivity|].
  now rewrite IH, andb_assoc.
Qed.

Lemma all_chars_lower s : all_chars lowfix (PyStr.lower s) = true.
Proof.
  induction s as [|c r IH]; simpl; [reflexivity|].
  now rewrite lower_char_idem, IH.
Qed.

Lemma all_chars_replace P a b s :
  P b = true -> all_chars P s = true -> all_chars P (PyStr.replace a b s) = true.
Proof.
  intros Hb. induction s as [|c r IH]; simpl; [reflexivity|].
  intros H. apply andb_prop in H as [Hc Hr]. rewrite (IH Hr).
  destruct (Ascii.eqb c a); now rewrite ?Hb, ?Hc.
Qed.

Lemma all_chars_take P n : forall s,
  all_chars P s = true -> all_chars P (PyStr.take n s) = true.
Proof.
  induction n as [|n IH]; intros [|c r]; simpl; try reflexivity.
  intros H. apply andb_prop in H as [Hc Hr]. now rewrite Hc, (IH r Hr).
Qed.

Lemma all_chars_slice_to P s stop :
  all_chars P s = true -> all_chars P (PyStr.slice_to s stop) = true.
Proof.
  intros H. unfold PyStr.slice_to.
  destruct (stop <? 0); now apply all_chars_take.
Qed.

(** After [.replace('.', ' ')] no dot is left. *)
Lemma all_chars_undotted s :
  all_chars lowfix s = true ->
  all_chars (fun c => lowfix c && not_dot c) (PyStr.replace "." " " s) = true.
Proof.
  induction s as [|c r IH]; simpl; [reflexivity|].
  intros H. apply andb_prop in H as [Hc Hr]. rewrite (IH Hr), andb_true_r.
  unfold not_dot. destruct (Ascii.eqb c ".") eqn:E; [reflexivity|].
  now rewrite Hc, E.
Qed.

Lemma push_empty toks : PyStr.push EmptyString toks = toks.
Proof. reflexivity. Qed.

(** Stripping does not change the tokens. *)
Lemma split_lstrip s :
  PyStr.split (PyStr.lstrip_by PyStr.is_space s) = PyStr.split s.
Proof.
  induction s as [|c r IH]; [reflexivity|].
  cbn [PyStr.lstrip_by]. destruct (PyStr.is_space c) eqn:Hc; [|reflexivity].
  rewrite IH. unfold PyStr.split. cbn [PyStr.split_ws].
  destruct (PyStr.split_ws r) as [tok toks]. now rewrite Hc.
Qed.

Lemma split_ws_rstrip s :
  PyStr.split_ws (PyStr.rstrip_by PyStr.is_space s) = PyStr.split_ws s.
Proof.
  induction s as [|c r IH]; [reflexivity|].
  cbn [PyStr.rstrip_by]. cbv zeta.
  destruct (PyStr.is_space c
            && PyStr.is_empty (PyStr.rstrip_by PyStr.is_space r)) eqn:E.
  - apply andb_prop in E as [Hc He].
    destruct (PyStr.rstrip_by PyStr.is_space r) eqn:Hr; [|discriminate].
    cbn [PyStr.split_ws]. rewrite <- IH. cbn [PyStr.split_ws]. now rewrite Hc.
  - cbn [PyStr.split_ws]. now rewrite IH.
Qed.

Lemma split_strip s : PyStr.split (PyStr.strip s) = PyStr.split s.
Proof.
  unfold PyStr.strip. rewrite <- (split_lstrip s).
  unfold PyStr.split. now rewrite split_ws_rstrip.
Qed.

(** The tokens keep what holds of every character, and have no
    whitespace and no empty token among them. *)
Lemma split_ws_tokens P s :
  all_chars P s = true ->
  all_chars (fun c => P c && not_space c) (fst (PyStr.split_ws s)) = true /\
  Forall (fun t => PyStr.is_empty t = false /\
                   all_chars (fun c => P c && not_space c) t = true)
         (snd (PyStr.split_ws s)).
Proof.
  induction s as [|c r IH]; simpl; [intros _; split; [reflexivity|constructor]|].
  intros H. apply andb_prop in H as [Hc Hr].
  destruct (IH Hr) as [Htok Htoks].
  destruct (PyStr.split_ws r) as [tok toks]. simpl in Htok, Htoks.
  destruct (PyStr.is_space c) eqn:Hs; simpl.
  - split; [reflexivity|]. unfold PyStr.push.
    destruct (PyStr.is_empty tok) eqn:He; [exact Htoks|].
    constructor; [now split | exact Htoks].
  - split; [|exact Htoks]. rewrite Htok, Hc. unfold not_space. now rewrite Hs.
Qed.

Lemma split_tokens P s :
  all_chars P s = true ->
  Forall (fun t => PyStr.is_empty t = false /\
                   all_chars (fun c => P c && not_space c) t = true)
         (PyStr.split s).
Proof.
  intros H. destruct (split_ws_tokens P s H) as [Htok Htoks].
  unfold PyStr.split. destruct (PyStr.split_ws s) as [tok toks].
  simpl in Htok, Htoks. unfold PyStr.push.
  destruct (PyStr.is_empty tok) eqn:He; [exact Htoks|].
  constructor; [now split | exact Htoks].
Qed.

Lemma Forall_removelast {A : Type} (P : A -> Prop) (l : list A) :
  Forall P l -> Forall P (List.removelast l).
Proof.
  induction 1 as [|x l Hx Hl IH]; simpl; [constructor|].
  destruct l; [constructor|]. constructor; assumption.
Qed.

(** The title is its tokens joined by single spaces. *)
Lemma title_and_year_tokens name end_ :
  all_chars lowfix name = true ->
  exists toks,
    fst (title_and_year name end_) = PyStr.join " " toks /\
    Forall title_token toks.
Proof.
  intros Hname. unfold title_and_year. rewrite split_strip.
  set (X := PyStr.replace "." " " (PyStr.slice_to name end_)).
  assert (HX : Forall title_token (PyStr.split X)).
  { apply (split_tokens (fun c => lowfix c && not_dot c)).
    apply all_chars_undotted. now apply all_chars_slice_to. }
  destruct (trailing_int (PyStr.split X)) as [y|]; simpl.
  - destruct ((1900 <=? y) && (y <=? 2100)); eexists; split;
      try reflexivity; [now apply Forall_removelast | exact HX].
  - eexists. split; [reflexivity | exact HX].
Qed.

Lemma lower_fixed s : all_chars lowfix s = true -> PyStr.lower s = s.
Proof.
  induction s as [|c r IH]; simpl; [reflexivity|].
  intros H. apply andb_prop in H as [Hc Hr].
  apply Ascii.eqb_eq in Hc. now rewrite Hc, (IH Hr).
Qed.

Lemma append_cons c s t : (String c s ++ t)%string = String c (s ++ t)%string.
Proof. reflexivity. Qed.

Lemma append_empty_r s : (s ++ "")%string = s.
Proof.
  induction s as [|c r IH]; [reflexivity|]. now rewrite append_cons, IH.
Qed.

Lemma join_cons sep x y r :
  PyStr.join sep (x :: y :: r) = (x ++ sep ++ PyStr.join sep (y :: r))%string.
Proof. reflexivity. Qed.

Lemma all_chars_join P sep toks :
  all_chars P sep = true ->
  Forall (fun t => all_chars P t = true) toks ->
  all_chars P (PyStr.join sep toks) = true.
Proof.
  intros Hsep. induction 1 as [|x r Hx Hr IH]; [reflexivity|].
  destruct r as [|y r]; [exact Hx|].
  now rewrite join_cons, !all_chars_app, Hx, Hsep, IH.
Qed.

Lemma replace_app a b s t :
  PyStr.replace a b (s ++ t)%string
  = (PyStr.replace a b s ++ PyStr.replace a b t)%string.
Proof.
  induction s as [|c r IH]; [reflexivity|].
  rewrite append_cons. simpl. now rewrite IH.
Qed.

Lemma replace_absent a b s :
  all_chars (fun c => negb (Ascii.eqb c a)) s = true -> PyStr.replace a b s = s.
Proof.
  induction s as [|c r IH]; simpl; [reflexivity|].
  intros H. apply andb_prop in H as [Hc Hr].
  apply negb_true_iff in Hc. now rewrite Hc, (IH Hr).
Qed.

(** Replacing the separator of a join whose tokens do not have it. *)
Lemma replace_join a b toks :
  Forall (fun t => all_chars (fun c => negb (Ascii.eqb c a)) t = true) toks ->
  PyStr.replace a b (PyStr.join (String a "") toks)
  = PyStr.join (String b "") toks.
Proof.
  induction 1 as [|x r Hx Hr IH]; [reflexivity|].
  destruct r as [|y r]; [now apply replace_absent|].
  rewrite !join_cons, !replace_app, IH, (replace_absent _ _ _ Hx).
  simpl. now rewrite Ascii.eqb_refl.
Qed.

Lemma take_length s : PyStr.take (String.length s) s = s.
Proof. induction s as [|c r IH]; simpl; [reflexivity | now rewrite IH]. Qed.

Lemma slice_to_len s : PyStr.slice_to s (PyStr.len s) = s.
Proof.
  unfold PyStr.slice_to, PyStr.len.
  destruct (Z.of_nat (String.length s) <? 0) eqn:E;
    [apply Z.ltb_lt in E; lia|].
  rewrite Nat2Z.id. apply take_length.
Qed.

Lemma split_ws_token_app t s :
  all_chars not_space t = true ->
  PyStr.split_ws (t ++ s)%string
  = ((t ++ fst (PyStr.split_ws s))%string, snd (PyStr.split_ws s)).
Proof.
  induction t as [|c r IH].
  - intros _. change ("" ++ s)%string with s. now destruct (PyStr.split_ws s).
  - intros H. simpl in H. apply andb_prop in H as [Hc Hr].
    rewrite !append_cons. cbn [PyStr.split_ws]. rewrite (IH Hr).
    apply negb_true_iff in Hc. now rewrite Hc.
Qed.

Lemma split_token t :
  PyStr.is_empty t = false -> all_chars not_space t = true ->
  PyStr.split t = [t].
Proof.
  intros Hne Hns. unfold PyStr.split.
  rewrite <- (append_empty_r t) at 1. rewrite (split_ws_token_app t "" Hns).
  simpl. rewrite append_empty_r. unfold PyStr.push. now rewrite Hne.
Qed.

Lemma split_token_space t s :
  PyStr.is_empty t = false -> all_chars not_space t = true ->
  PyStr.split (t ++ " " ++ s)%string = t :: PyStr.split s.
Proof.
  intros Hne Hns. unfold PyStr.split.
  rewrite (split_ws_token_app t _ Hns).
  change (" " ++ s)%string with (String " " s). cbn [PyStr.split_ws].
  destruct (PyStr.split_ws s) as [tok toks].
  change (PyStr.is_space " ") with true. cbv iota. simpl fst. simpl snd.
  rewrite append_empty_r. unfold PyStr.push at 1. now rewrite Hne.
Qed.

(** Splitting a join of tokens gives the tokens back. *)
Lemma split_join toks :
  Forall (fun t => PyStr.is_empty t = false /\ all_chars not_space t = true)
         toks ->
  PyStr.split (PyStr.join " " toks) = toks.
Proof.
  induction 1 as [|x r [Hne Hns] Hr IH]; [reflexivity|].
  destruct r as [|y r]; [now apply split_token|].
  now rewrite join_cons, (split_token_space _ _ Hne Hns), IH.
Qed.

Lemma title_token_weaken (Q : ascii -> bool) toks :
  (forall c, title_char c = true -> Q c = true) ->
  Forall title_token toks ->
  Forall (fun t => all_chars Q t = true) toks.
Proof.
  intros HQ H. eapply List.Forall_impl; [|exact H].
  intros t [_ Ht]. now apply (all_chars_impl title_char).
Qed.

Lemma title_char_lowfix c : title_char c = true -> lowfix c = true.
Proof.
  unfold title_char. intros H.
  apply andb_prop in H as [H _]. now apply andb_prop in H as [H _].
Qed.

Lemma title_char_not_dot c :
  title_char c = true -> negb (Ascii.eqb c ".") = true.
Proof.
  unfold title_char. intros H.
  apply andb_prop in H as [H _]. now apply andb_prop in H as [_ H].
Qed.

Lemma title_char_not_space c : title_char c = true -> not_space c = true.
Proof. unfold title_char. intros H. now apply andb_prop in H as [_ H]. Qed.

Lemma title_char_not_blank c :
  title_char c = true -> negb (Ascii.eqb c " ") = true.
Proof.
  intros H. apply title_char_not_space in H. unfold not_space in H.
  destruct (Ascii.eqb c " ") eqn:E; [|reflexivity].
  apply Ascii.eqb_eq in E. subst c. discriminate H.
Qed.

Lemma fold_no_suffix name (l : list string) : forall end_,
  forallb (fun suffix => PyStr.find name suffix =? -1) l = true ->
  fold_left
    (fun end_ suffix =>
       let idx := PyStr.find name suffix in
       if negb (idx =? -1) then Z.min end_ idx else end_)
    l end_ = end_.
Proof.
  induction l as [|suffix l IH]; intros end_ H; simpl; [reflexivity|].
  simpl in H. apply andb_prop in H as [Hs Hl]. rewrite Hs. simpl.
  now apply IH.
Qed.

(** What a second run does with a title made of title tokens. *)
Lemma rerun_on_tokens toks :
  Forall title_token toks ->
  let title := PyStr.join " " toks in
  let name := PyStr.replace " " "." (PyStr.lower title) in
  name = PyStr.join "." toks /\
  (REGEX_SEASON_EPISODE_search name = None ->
   forallb (fun suffix => PyStr.find name suffix =? -1) CLEAR_SUFFIX = true ->
   get_title_from_filename title
   = Ok (let split := toks in
         let year := trailing_int split in
         let split :=
           match year with
           | Some y =>
               if (1900 <=? y) && (y <=? 2100)
               then List.removelast split else split
           | None => split
           end in
         (PyStr.join " " split, year, None, None))).
Proof.
  intros Htoks title name.
  assert (Hname : name = PyStr.join "." toks).
  { unfold name, title. rewrite lower_fixed.
    - apply (replace_join " " ".").
      now apply (title_token_weaken _ _ title_char_not_blank).
    - apply all_chars_join; [reflexivity|].
      now apply (title_token_weaken _ _ title_char_lowfix). }
  split; [exact Hname|]. intros Hre Hsuf.
  unfold get_title_from_filename. fold title. fold name.
  unfold season_episode_end. rewrite Hre. cbn [rbind].
  unfold clear_suffix_end. rewrite (fold_no_suffix name _ _ Hsuf).
  unfold title_and_year. rewrite slice_to_len, split_strip, Hname.
  rewrite (replace_join "." " ").
  2:{ now apply (title_token_weaken _ _ title_char_not_dot). }
  rewrite split_join.
  2:{ eapply List.Forall_impl; [|exact Htoks]. intros t [Hne Ht]. split; [exact Hne|].
      apply (all_chars_impl title_char); [apply title_char_not_space|exact Ht]. }
  reflexivity.
Qed.

Lemma get_title_from_filename_tokens filename title year season episode :
  get_title_from_filename filename = Ok (title, year, season, episode) ->
  exists toks, title = PyStr.join " " toks /\ Forall title_token toks.
Proof.
  unfold get_title_from_filename.
  set (name := PyStr.replace " " "." (PyStr.lower filename)).
  assert (Hname : all_chars lowfix name = true).
  { apply all_chars_replace; [reflexivity | apply all_chars_lower]. }
  destruct (season_episode_end name) as [[[s e] end_]|err]; cbn [rbind];
    [|discriminate].
  destruct (title_and_year_tokens name (clear_suffix_end name end_) Hname)
    as (toks & Htitle & Htoks).
  destruct (title_and_year name (clear_suffix_end name end_)) as [t y].
  intros H. injection H as <- _ _ _. simpl in Htitle. eauto.
Qed.

(** C6 (as amended).  When the title, lower-cased and dot-joined again,
    has no season marker and none of the release suffixes in it, and its
    last token (if it has more than one) does not parse as an integer,
    [get_title_from_filename] maps the title to itself with year, season
    and episode absent. *)
Theorem clean_title_is_fixed_point
    (filename title : string) (year season episode : option Z) :
  get_title_from_filename filename = Ok (title, year, season, episode) ->
  let name := PyStr.replace " " "." (PyStr.lower title) in
  REGEX_SEASON_EPISODE_search name = None ->
  forallb (fun suffix => PyStr.find name suffix =? -1) CLEAR_SUFFIX = true ->
  trailing_int (PyStr.split title) = None ->
  get_title_from_filename title = Ok (title, None, None, None).
Proof.
  intros Hrun name Hre Hsuf Hyear.
  destruct (get_title_from_filename_tokens _ _ _ _ _ Hrun)
    as (toks & -> & Htoks).
  destruct (rerun_on_tokens toks Htoks) as [_ Hrerun].
  rewrite (Hrerun Hre Hsuf). cbv zeta.
  rewrite split_join in Hyear.
  2:{ eapply List.Forall_impl; [|exact Htoks]. intros t [Hne Ht].
      split; [exact Hne|].
      apply (all_chars_impl title_char); [apply title_char_not_space|exact Ht]. }
  now rewrite Hyear.
Qed.

Lemma clean_title_is_fixed_point_witness :
  get_title_from_filename "kingsman the secret service"
  = Ok ("kingsman the secret service", None, None, None).
Proof.
  apply (clean_title_is_fixed_point
           "Kingsman.The.Secret.Service.2014.UNRATED.720p.BluRay.DD5.1.x264-PuTao"
           "kingsman the secret service" (Some 2014) None None).
  - vm_compute. reflexivity.
  - vm_compute. reflexivity.
  - vm_compute. reflexivity.
  - vm_compute. reflexivity.
Defined.

(** C6 (as stated) fails, in each of three ways: the token before the
    year is a year itself; two tokens that a tab kept apart read as a
    season marker once joined by a dot; two tokens that two dots kept
    apart read as a release suffix once joined by one. *)
Lemma title_is_not_a_fixed_point :
  (get_title_from_filename "Blade.Runner.2049.2017.1080p.BluRay.x264"
   = Ok ("blade runner 2049", Some 2017, None, None) /\
   get_title_from_filename "blade runner 2049"
   = Ok ("blade runner", Some 2049, None, None) /\
   get_title_from_filename "blade runner 2049"
   <> Ok ("blade runner 2049", None, None, None)) /\
  (get_title_from_filename (String "a" (String "009" "s01"))
   = Ok ("a s01", None, None, None) /\
   get_title_from_filename "a s01" = Ok ("a", None, Some 1, None)) /\
  (get_title_from_filename "x.dd5..1.y" = Ok ("x dd5 1 y", None, None, None) /\
   get_title_from_filename "x dd5 1 y" = Ok ("x", None, None, None)).
Proof.
  repeat split; try (vm_compute; reflexivity).
  vm_compute. intros H. discriminate H.
Qed.

(** * Further properties *)

(** ** Substrings *)

Lemma append_nil_l s : ("" ++ s)%string = s.
Proof. reflexivity. Qed.

Lemma append_assoc s t u : ((s ++ t) ++ u)%string = (s ++ t ++ u)%string.
Proof.
  induction s as [|c r IH]; [reflexivity|]. now rewrite !append_cons, IH.
Qed.

Lemma length_append s t :
  String.length (s ++ t)%string = (String.length s + String.length t)%nat.
Proof.
  induction s as [|c r IH]; [reflexivity|]. rewrite append_cons. simpl.
  now rewrite IH.
Qed.

Lemma prefix_nil s : String.prefix "" s = true.
Proof. now destruct s. Qed.

Lemma prefix_cons a p b s :
  String.prefix (String a p) (String b s)
  = if Ascii.eqb a b then String.prefix p s else false.
Proof.
  simpl. destruct (ascii_dec a b) as [->|Hne].
  - now rewrite Ascii.eqb_refl.
  - apply Ascii.eqb_neq in Hne. now rewrite Hne.
Qed.

Lemma prefix_app p : forall s,
  String.prefix p s = true <-> exists t, s = (p ++ t)%string.
Proof.
  induction p as [|a p IH]; intros s.
  - rewrite prefix_nil. split; [intros _; now exists s | reflexivity].
  - destruct s as [|b s].
    + split; [discriminate | intros [t Ht]; discriminate].
    + rewrite prefix_cons. destruct (Ascii.eqb a b) eqn:E.
      * apply Ascii.eqb_eq in E. subst b. rewrite IH.
        split; intros [t Ht]; exists t.
        -- now rewrite append_cons, Ht.
        -- rewrite append_cons in Ht. now injection Ht.
      * apply Ascii.eqb_neq in E. split; [discriminate|].
        intros [t Ht]. rewrite append_cons in Ht. injection Ht as Hc _.
        congruence.
Qed.

Lemma find_nil sub :
  PyStr.find "" sub = if String.prefix sub "" then 0 else -1.
Proof. reflexivity. Qed.

Lemma find_cons c r sub :
  PyStr.find (String c r) sub
  = if String.prefix sub (String c r) then 0
    else if PyStr.find r sub =? -1 then -1 else PyStr.find r sub + 1.
Proof. reflexivity. Qed.

Lemma find_range s sub : PyStr.find s sub = -1 \/ 0 <= PyStr.find s sub.
Proof.
  induction s as [|c r IH].
  - rewrite find_nil. destruct (String.prefix sub ""); [right|left]; lia.
  - rewrite find_cons. destruct (String.prefix sub (String c r)); [right; lia|].
    destruct (PyStr.find r sub =? -1) eqn:E; [now left|].
    apply Z.eqb_neq in E. right. lia.
Qed.

Lemma contains_nil sub : PyStr.contains sub "" = String.prefix sub "".
Proof.
  unfold PyStr.contains. rewrite find_nil. now destruct (String.prefix sub "").
Qed.

Lemma contains_cons sub c r :
  PyStr.contains sub (String c r)
  = String.prefix sub (String c r) || PyStr.contains sub r.
Proof.
  unfold PyStr.contains. rewrite find_cons.
  destruct (String.prefix sub (String c r)); [reflexivity|].
  destruct (PyStr.find r sub =? -1) eqn:E; [reflexivity|].
  apply Z.eqb_neq in E. destruct (find_range r sub) as [H|H]; [congruence|].
  simpl. apply negb_true_iff, Z.eqb_neq. lia.
Qed.

Lemma occurs_prefix pat s : String.prefix pat s = true -> occurs pat s.
Proof.
  intros H. apply prefix_app in H as [t ->]. exists "", t. reflexivity.
Qed.

Lemma occurs_cons pat c r : occurs pat r -> occurs pat (String c r).
Proof.
  intros (pre & post & ->). exists (String c pre), post.
  now rewrite append_cons.
Qed.

Lemma occurs_inv pat c r :
  occurs pat (String c r) ->
  String.prefix pat (String c r) = true \/ occurs pat r.
Proof.
  intros (pre & post & H). destruct pre as [|a pre].
  - left. apply prefix_app. exists post. exact H.
  - right. rewrite append_cons in H. injection H as _ ->. now exists pre, post.
Qed.

(** [sub in s] is the occurrence of [sub] in [s]. *)
Lemma contains_occurs pat s : PyStr.contains pat s = true <-> occurs pat s.
Proof.
  induction s as [|c r IH].
  - rewrite contains_nil. split; [apply occurs_prefix|].
    intros (pre & post & H). apply prefix_app.
    destruct pre; [|discriminate]. now exists post.
  - rewrite contains_cons, orb_true_iff, IH. split.
    + intros [H|H]; [now apply occurs_prefix | now apply occurs_cons].
    + apply occurs_inv.
Qed.

Lemma not_contains_occurs pat s :
  PyStr.contains pat s = false <-> ~ occurs pat s.
Proof.
  rewrite <- contains_occurs. now destruct (PyStr.contains pat s).
Qed.

Lemma occurs_app_l pat s t : occurs pat s -> occurs pat (s ++ t)%string.
Proof.
  intros (pre & post & ->). exists pre, (post ++ t)%string.
  now rewrite !append_assoc.
Qed.

Lemma occurs_app_r pat s t : occurs pat t -> occurs pat (s ++ t)%string.
Proof.
  intros (pre & post & ->). exists (s ++ pre)%string, post.
  now rewrite !append_assoc.
Qed.

Lemma occurs_trans a b c : occurs a b -> occurs b c -> occurs a c.
Proof.
  intros (p1 & q1 & ->) (p2 & q2 & ->).
  exists (p2 ++ p1)%string, (q1 ++ q2)%string. now rewrite !append_assoc.
Qed.

(** ** More on [get_title_from_filename] *)

(** The function returns, and what it returns is read off the two halves
    of its body. *)
Lemma get_title_from_filename_parts filename :
  let name := PyStr.replace " " "." (PyStr.lower filename) in
  exists season episode end_,
    season_episode_end name = Ok (season, episode, end_) /\
    get_title_from_filename filename
    = Ok (fst (title_and_year name (clear_suffix_end name end_)),
          snd (title_and_year name (clear_suffix_end name end_)),
          season, episode).
Proof.
  intros name.
  destruct (season_episode_end_ok name) as (season & episode & end_ & H & _).
  exists season, episode, end_. split; [exact H|].
  unfold get_title_from_filename. fold name. rewrite H. cbn [rbind].
  now destruct (title_and_year name (clear_suffix_end name end_)).
Qed.

Lemma absent_char_not_contained a s :
  all_chars (fun c => negb (Ascii.eqb c a)) s = true ->
  PyStr.contains (String a "") s = false.
Proof.
  induction s as [|c r IH]; [reflexivity|].
  simpl. intros H. apply andb_prop in H as [Hc Hr].
  rewrite contains_cons, (IH Hr), prefix_cons, prefix_nil, orb_false_r.
  apply negb_true_iff in Hc. now rewrite Ascii.eqb_sym, Hc.
Qed.

Lemma title_tokens_lowfix toks :
  Forall title_token toks -> all_chars lowfix (PyStr.join " " toks) = true.
Proof.
  intros H. apply all_chars_join; [reflexivity|].
  now apply (title_token_weaken _ _ title_char_lowfix).
Qed.

Lemma title_tokens_no_dot toks :
  Forall title_token toks ->
  all_chars (fun c => negb (Ascii.eqb c ".")) (PyStr.join " " toks) = true.
Proof.
  intros H. apply all_chars_join; [reflexivity|].
  now apply (title_token_weaken _ _ title_char_not_dot).
Qed.

Lemma title_tokens_split toks :
  Forall title_token toks -> PyStr.split (PyStr.join " " toks) = toks.
Proof.
  intros H. apply split_join.
  eapply List.Forall_impl; [|exact H]. intros t [Hne Ht]. split; [exact Hne|].
  apply (all_chars_impl title_char); [apply title_char_not_space | exact Ht].
Qed.

(** X1.  The title is in lower case, has no dot in it, and is its own
    tokens joined by single spaces: no other whitespace, none at the
    ends. *)
Theorem title_is_lower_case_and_single_spaced (filename : string) :
  exists title year season episode,
    get_title_from_filename filename = Ok (title, year, season, episode) /\
    PyStr.lower title = title /\
    PyStr.contains "." title = false /\
    PyStr.join " " (PyStr.split title) = title.
Proof.
  destruct (get_title_from_filename_parts filename)
    as (season & episode & end_ & _ & Hrun).
  cbv zeta in Hrun. do 4 eexists. split; [exact Hrun|].
  destruct (get_title_from_filename_tokens _ _ _ _ _ Hrun)
    as (toks & -> & Htoks).
  split; [|split].
  - apply lower_fixed. now apply title_tokens_lowfix.
  - apply absent_char_not_contained. now apply title_tokens_no_dot.
  - now rewrite title_tokens_split.
Qed.

Lemma join_not_empty sep t toks :
  PyStr.is_empty t = false -> PyStr.is_empty (PyStr.join sep (t :: toks)) = false.
Proof.
  intros H. destruct t as [|c t]; [discriminate|].
  destruct toks as [|u toks]; [reflexivity|].
  rewrite join_cons, append_cons. reflexivity.
Qed.

Lemma trailing_int_two_tokens split y :
  trailing_int split = Some y -> exists a b rest, split = a :: b :: rest.
Proof.
  unfold trailing_int. destruct split as [|a [|b rest]]; try discriminate.
  eauto.
Qed.

Lemma title_and_year_not_empty name end_ y :
  all_chars lowfix name = true ->
  snd (title_and_year name end_) = Some y ->
  PyStr.is_empty (fst (title_and_year name end_)) = false.
Proof.
  intros Hname. unfold title_and_year. rewrite split_strip.
  set (X := PyStr.replace "." " " (PyStr.slice_to name end_)).
  assert (HX : Forall title_token (PyStr.split X)).
  { apply (split_tokens (fun c => lowfix c && not_dot c)).
    apply all_chars_undotted. now apply all_chars_slice_to. }
  cbn [fst snd]. intros Hy. rewrite Hy.
  destruct (trailing_int_two_tokens _ _ Hy) as (a & b & rest & Hsplit).
  rewrite Hsplit in *. inversion HX as [|? ? [Ha _] _]; subst.
  destruct ((1900 <=? y) && (y <=? 2100)).
  - change (List.removelast (a :: b :: rest))
      with (a :: List.removelast (b :: rest)).
    now apply join_not_empty.
  - now apply join_not_empty.
Qed.

(** X2.  A year comes with a title: whenever a year is returned, the
    title is not empty. *)
Theorem year_comes_with_a_title
    (filename title : string) (y : Z) (season episode : option Z) :
  get_title_from_filename filename = Ok (title, Some y, season, episode) ->
  title <> EmptyString.
Proof.
  intros Hrun.
  destruct (get_title_from_filename_parts filename)
    as (season' & episode' & end_ & _ & Hparts).
  cbv zeta in Hparts.
  set (name := PyStr.replace " " "." (PyStr.lower filename)) in *.
  assert (Hname : all_chars lowfix name = true).
  { apply all_chars_replace; [reflexivity | apply all_chars_lower]. }
  pose proof (title_and_year_not_empty name (clear_suffix_end name end_) y
                Hname) as H.
  revert H Hparts.
  generalize (title_and_year name (clear_suffix_end name end_)).
  intros [t yr] H Hparts. rewrite Hparts in Hrun. cbn [fst snd] in *.
  injection Hrun as -> -> _ _. apply is_empty_false. now apply H.
Qed.

Lemma year_comes_with_a_title_witness :
  "house of cards" <> EmptyString.
Proof.
  apply (year_comes_with_a_title
           "House.Of.Cards.2013.S01.720p.BluRay.x264-DEMAND"
           "house of cards" 2013 (Some 1) None).
  vm_compute. reflexivity.
Defined.

Lemma lower_char_blank c :
  Ascii.eqb (PyStr.lower_char c) " " = Ascii.eqb c " ".
Proof. destruct c as [[] [] [] [] [] [] [] []]; vm_compute; reflexivity. Qed.

Lemma lower_lower s : PyStr.lower (PyStr.lower s) = PyStr.lower s.
Proof. apply lower_fixed, all_chars_lower. Qed.

Lemma lower_replace_blank s :
  PyStr.lower (PyStr.replace " " "." s) = PyStr.replace " " "." (PyStr.lower s).
Proof.
  induction s as [|c r IH]; [reflexivity|]. simpl. rewrite IH, lower_char_blank.
  now destruct (Ascii.eqb c " ").
Qed.

Lemma replace_replace a b s :
  Ascii.eqb b a = false ->
  PyStr.replace a b (PyStr.replace a b s) = PyStr.replace a b s.
Proof.
  intros Hab. induction s as [|c r IH]; [reflexivity|]. simpl. rewrite IH.
  destruct (Ascii.eqb c a) eqn:E; [now rewrite Hab | now rewrite E].
Qed.

(** X3.  Letter case does not matter, and once a name is in lower case
    neither does the choice between spaces and dots: a file name, its
    lower-case form and its lower-case form with dots for spaces are
    normalized alike. *)
Theorem case_and_separator_insensitive (filename : string) :
  get_title_from_filename (PyStr.lower filename)
  = get_title_from_filename filename /\
  get_title_from_filename (PyStr.replace " " "." (PyStr.lower filename))
  = get_title_from_filename filename.
Proof.
  unfold get_title_from_filename. split.
  - now rewrite lower_lower.
  - now rewrite lower_replace_blank, lower_lower, replace_replace.
Qed.

(** *** No release suffix in the title *)

Lemma prefix_take X : forall n s,
  String.prefix X (PyStr.take n s) = true ->
  String.prefix X s = true /\ (String.length X <= n)%nat.
Proof.
  induction X as [|x X IH]; intros n s H.
  - rewrite prefix_nil. split; [reflexivity | simpl; lia].
  - destruct n as [|n], s as [|c r]; try discriminate H.
    simpl PyStr.take in H. rewrite prefix_cons in *.
    destruct (Ascii.eqb x c); [|discriminate].
    destruct (IH n r H) as [Hp Hl]. split; [exact Hp | simpl; lia].
Qed.

Lemma occurs_empty X : occurs X "" -> X = EmptyString.
Proof.
  intros (pre & post & H). destruct pre; [|discriminate].
  destruct X; [reflexivity | discriminate].
Qed.

(** An occurrence within the first [n] characters puts the first
    occurrence there. *)
Lemma occurs_take_find X : X <> EmptyString -> forall s n,
  occurs X (PyStr.take n s) ->
  PyStr.find s X <> -1 /\ PyStr.find s X + PyStr.len X <= Z.of_nat n.
Proof.
  intros HX. induction s as [|c r IH]; intros n H.
  - destruct n; apply occurs_empty in H; contradiction.
  - destruct n as [|n]; [apply occurs_empty in H; contradiction|].
    simpl PyStr.take in H. rewrite find_cons.
    apply occurs_inv in H as [H|H].
    + change (String c (PyStr.take n r)) with (PyStr.take (S n) (String c r)) in H.
      apply prefix_take in H as [Hp Hl]. rewrite Hp. unfold PyStr.len. lia.
    + destruct (IH n H) as [Hf Hle].
      destruct (String.prefix X (String c r)).
      * split; [lia|]. destruct (find_range r X); lia.
      * apply Z.eqb_neq in Hf. rewrite Hf. apply Z.eqb_neq in Hf.
        destruct (find_range r X); lia.
Qed.

Lemma fold_suffix_le name (l : list string) : forall end_,
  fold_left
    (fun end_ suffix =>
       let idx := PyStr.find name suffix in
       if negb (idx =? -1) then Z.min end_ idx else end_)
    l end_ <= end_.
Proof.
  induction l as [|x l IH]; intros end_; simpl; [lia|].
  etransitivity; [apply IH|].
  destruct (negb (PyStr.find name x =? -1)); lia.
Qed.

Lemma fold_suffix_found name (l : list string) X : forall end_,
  In X l -> PyStr.find name X <> -1 ->
  fold_left
    (fun end_ suffix =>
       let idx := PyStr.find name suffix in
       if negb (idx =? -1) then Z.min end_ idx else end_)
    l end_ <= PyStr.find name X.
Proof.
  induction l as [|x l IH]; intros end_ Hin Hf; [destruct Hin|].
  simpl. destruct Hin as [->|Hin]; [|now apply IH].
  etransitivity; [apply fold_suffix_le|].
  apply Z.eqb_neq in Hf. rewrite Hf. simpl. lia.
Qed.

Lemma fold_suffix_nonneg name (l : list string) : forall end_,
  0 <= end_ ->
  0 <= fold_left
         (fun end_ suffix =>
            let idx := PyStr.find name suffix in
            if negb (idx =? -1) then Z.min end_ idx else end_)
         l end_.
Proof.
  induction l as [|x l IH]; intros end_ H; simpl; [exact H|].
  apply IH. destruct (PyStr.find name x =? -1) eqn:E; simpl; [exact H|].
  apply Z.eqb_neq in E. destruct (find_range name x); lia.
Qed.

Lemma search_from_start s : forall i m,
  Regex.search_from i s = Some m -> i <= m_start m.
Proof.
  induction s as [|c r IH]; intros i m H.
  - simpl in H. discriminate.
  - cbn [Regex.search_from] in H.
    destruct (Regex.match_here (String c r)) as [g|].
    + injection H as <-. simpl. lia.
    + apply IH in H. lia.
Qed.

Lemma season_episode_end_nonneg name season episode end_ :
  season_episode_end name = Ok (season, episode, end_) -> 0 <= end_.
Proof.
  unfold season_episode_end.
  destruct (REGEX_SEASON_EPISODE_search name) as [m|] eqn:Hs.
  - apply search_from_start in Hs.
    destruct (m_groups m) as [[g1 g2] g3].
    destruct (PyStr.int g1) as [n|e]; cbn [rbind]; [|discriminate].
    assert (Hend : 0 <= Z.min (PyStr.len name) (m_start m)).
    { unfold PyStr.len. lia. }
    destruct g3 as [g|]; cbn [rbind].
    + destruct (PyStr.is_empty g); cbn [rbind].
      * intros H. injection H as _ _ <-. exact Hend.
      * destruct (PyStr.int g); cbn [rbind]; [|discriminate].
        intros H. injection H as _ _ <-. exact Hend.
    + intros H. injection H as _ _ <-. exact Hend.
  - intros H. injection H as _ _ <-. unfold PyStr.len. lia.
Qed.

Lemma no_occurrence_before name X e :
  X <> EmptyString -> 0 <= e ->
  (PyStr.find name X <> -1 -> e <= PyStr.find name X) ->
  ~ occurs X (PyStr.slice_to name e).
Proof.
  intros HX Hnn Hle Hocc. unfold PyStr.slice_to in Hocc.
  destruct (e <? 0) eqn:E; [apply Z.ltb_lt in E; lia|].
  destruct (occurs_take_find X HX _ _ Hocc) as [Hf Hlen].
  specialize (Hle Hf). rewrite Z2Nat.id in Hlen by exact Hnn.
  assert (0 < PyStr.len X).
  { unfold PyStr.len. destruct X; [contradiction | simpl; lia]. }
  lia.
Qed.

(** No suffix occurs before the end that the loop over [CLEAR_SUFFIX]
    leaves. *)
Lemma no_suffix_before_end name X end_ :
  X <> EmptyString -> In X CLEAR_SUFFIX -> 0 <= end_ ->
  ~ occurs X (PyStr.slice_to name (clear_suffix_end name end_)).
Proof.
  intros HX Hin Hend. apply no_occurrence_before; [exact HX | |].
  - now apply fold_suffix_nonneg.
  - now apply fold_suffix_found.
Qed.

Lemma prefix_app_sep X b : forall s t,
  all_chars (fun c => negb (Ascii.eqb c b)) X = true ->
  String.prefix X (s ++ String b t)%string = true ->
  String.prefix X s = true.
Proof.
  induction X as [|x X IH]; intros s t HX H; [apply prefix_nil|].
  simpl in HX. apply andb_prop in HX as [Hx HX].
  destruct s as [|c s].
  - rewrite append_nil_l, prefix_cons in H. apply negb_true_iff in Hx.
    rewrite Hx in H. discriminate.
  - rewrite append_cons, prefix_cons in H. rewrite prefix_cons.
    destruct (Ascii.eqb x c); [|discriminate]. now apply (IH s t).
Qed.

(** An occurrence that has no [b] in it does not go across a [b]. *)
Lemma occurs_app_sep X b s t :
  X <> EmptyString ->
  all_chars (fun c => negb (Ascii.eqb c b)) X = true ->
  occurs X (s ++ String b t)%string -> occurs X s \/ occurs X t.
Proof.
  intros Hne HX. induction s as [|c s IH]; intros H.
  - rewrite append_nil_l in H. apply occurs_inv in H as [H|H]; [|now right].
    destruct X as [|x X]; [contradiction|]. rewrite prefix_cons in H.
    simpl in HX. apply andb_prop in HX as [Hx _]. apply negb_true_iff in Hx.
    rewrite Hx in H. discriminate.
  - rewrite append_cons in H. apply occurs_inv in H as [H|H].
    + left. apply occurs_prefix.
      rewrite <- append_cons in H. now apply (prefix_app_sep X b _ t).
    + destruct (IH H) as [Hs|Ht]; [left; now apply occurs_cons | now right].
Qed.

Lemma occurs_join X toks :
  X <> EmptyString ->
  all_chars (fun c => negb (Ascii.eqb c " ")) X = true ->
  occurs X (PyStr.join " " toks) -> exists t, In t toks /\ occurs X t.
Proof.
  intros Hne HX. induction toks as [|t toks IH]; intros H.
  - apply occurs_empty in H. contradiction.
  - destruct toks as [|u toks].
    + exists t. split; [now left | exact H].
    + rewrite join_cons in H.
      change (" " ++ PyStr.join " " (u :: toks))%string
        with (String " " (PyStr.join " " (u :: toks))) in H.
      apply (occurs_app_sep X " " _ _ Hne HX) in H as [H|H].
      * exists t. split; [now left | exact H].
      * destruct (IH H) as (t' & Hin & Hocc). exists t'.
        split; [now right | exact Hocc].
Qed.

Lemma split_ws_occurs s :
  String.prefix (fst (PyStr.split_ws s)) s = true /\
  forall t, In t (snd (PyStr.split_ws s)) -> occurs t s.
Proof.
  induction s as [|c r [Hp Hin]]; [split; [reflexivity | intros t []]|].
  cbn [PyStr.split_ws]. destruct (PyStr.split_ws r) as [tok toks].
  cbn [fst snd] in *. destruct (PyStr.is_space c); cbn [fst snd].
  - split; [reflexivity|]. intros t Ht. apply occurs_cons.
    unfold PyStr.push in Ht. destruct (PyStr.is_empty tok).
    + now apply Hin.
    + destruct Ht as [<-|Ht]; [now apply occurs_prefix | now apply Hin].
  - split; [now rewrite prefix_cons, Ascii.eqb_refl|].
    intros t Ht. apply occurs_cons. now apply Hin.
Qed.

(** A token of [s.split()] occurs in [s]. *)
Lemma split_occurs s t : In t (PyStr.split s) -> occurs t s.
Proof.
  destruct (split_ws_occurs s) as [Hp Hin]. unfold PyStr.split.
  destruct (PyStr.split_ws s) as [tok toks]. cbn [fst snd] in *.
  unfold PyStr.push. destruct (PyStr.is_empty tok); [apply Hin|].
  intros [<-|H]; [now apply occurs_prefix | now apply Hin].
Qed.

Lemma replace_prefix a b X : forall s,
  all_chars (fun c => negb (Ascii.eqb c b)) X = true ->
  String.prefix X (PyStr.replace a b s) = true -> String.prefix X s = true.
Proof.
  induction X as [|x X IH]; intros s HX H; [apply prefix_nil|].
  simpl in HX. apply andb_prop in HX as [Hx HX]. apply negb_true_iff in Hx.
  destruct s as [|c s]; [discriminate H|].
  simpl PyStr.replace in H. rewrite prefix_cons in *.
  destruct (Ascii.eqb c a).
  - rewrite Hx in H. discriminate.
  - destruct (Ascii.eqb x c); [|discriminate]. now apply IH.
Qed.

(** What occurs after [.replace(a, b)] and has no [b] in it occurred
    before. *)
Lemma replace_occurs a b X s :
  all_chars (fun c => negb (Ascii.eqb c b)) X = true ->
  occurs X (PyStr.replace a b s) -> occurs X s.
Proof.
  intros HX. induction s as [|c s IH]; intros H; [exact H|].
  simpl PyStr.replace in H. apply occurs_inv in H as [H|H].
  - apply occurs_prefix, (replace_prefix a b X); [exact HX|]. exact H.
  - apply occurs_cons. now apply IH.
Qed.

Lemma in_removelast {A : Type} (x : A) (l : list A) :
  In x (List.removelast l) -> In x l.
Proof.
  induction l as [|a l IH]; [intros []|]. simpl.
  destruct l as [|b l]; [intros []|].
  intros [H|H]; [now left | right; now apply IH].
Qed.

(** What occurs in the title and has no blank in it occurs in the part of
    the name the title is made from. *)
Lemma title_and_year_occurs name end_ X :
  X <> EmptyString ->
  all_chars (fun c => negb (Ascii.eqb c " ")) X = true ->
  occurs X (fst (title_and_year name end_)) ->
  occurs X (PyStr.slice_to name end_).
Proof.
  intros Hne HX. unfold title_and_year. rewrite split_strip.
  set (Y := PyStr.replace "." " " (PyStr.slice_to name end_)).
  cbn [fst]. intros H.
  assert (Htoks : exists toks,
            occurs X (PyStr.join " " toks) /\
            forall t, In t toks -> In t (PyStr.split Y)).
  { destruct (trailing_int (PyStr.split Y)) as [y|].
    - destruct ((1900 <=? y) && (y <=? 2100)).
      + eexists. split; [exact H|]. intros t. apply in_removelast.
      + eexists. split; [exact H|]. auto.
    - eexists. split; [exact H|]. auto. }
  destruct Htoks as (toks & Hocc & Hsub).
  destruct (occurs_join X toks Hne HX Hocc) as (t & Hin & Ht).
  apply (replace_occurs "." " " X); [exact HX|]. fold Y.
  apply (occurs_trans X t Y Ht). apply split_occurs. now apply Hsub.
Qed.

Lemma clear_suffix_plain :
  forallb (fun X => negb (PyStr.is_empty X)
                    && all_chars (fun c => negb (Ascii.eqb c " ")) X)
          CLEAR_SUFFIX = true.
Proof. reflexivity. Qed.

(** X4.  No release suffix is left in the title: none of the tokens of
    [CLEAR_SUFFIX] occurs in it. *)
Theorem title_has_no_release_suffix
    (filename title : string) (year season episode : option Z) :
  get_title_from_filename filename = Ok (title, year, season, episode) ->
  forallb (fun suffix => negb (PyStr.contains suffix title)) CLEAR_SUFFIX
  = true.
Proof.
  intros Hrun. apply forallb_forall. intros X HinX.
  apply negb_true_iff, not_contains_occurs. intros Hocc.
  pose proof (proj1 (forallb_forall _ _) clear_suffix_plain X HinX) as HX.
  apply andb_prop in HX as [Hne HX]. apply negb_true_iff, is_empty_false in Hne.
  destruct (get_title_from_filename_parts filename)
    as (season' & episode' & end_ & Hsem & Hparts).
  cbv zeta in Hsem, Hparts.
  set (name := PyStr.replace " " "." (PyStr.lower filename)) in *.
  pose proof (season_episode_end_nonneg _ _ _ _ Hsem) as Hend.
  pose proof (no_suffix_before_end name X end_ Hne HinX Hend) as Hno.
  pose proof (title_and_year_occurs name (clear_suffix_end name end_) X
                Hne HX) as Hty.
  revert Hno Hty Hparts. generalize (clear_suffix_end name end_). intros e.
  generalize (title_and_year name e). intros [t yr] Hno Hty Hparts.
  rewrite Hparts in Hrun. cbn [fst snd] in *.
  injection Hrun as -> _ _ _. now apply Hno, Hty.
Qed.

Lemma title_has_no_release_suffix_witness :
  forallb (fun suffix => negb (PyStr.contains suffix "atomic blonde"))
          CLEAR_SUFFIX = true.
Proof.
  apply (title_has_no_release_suffix
           "Atomic.Blonde.2017.1080p.WEB-DL.DD5.1.H264-FGT.mkv"
           "atomic blonde" (Some 2017) None None).
  vm_compute. reflexivity.
Defined.

(** *** File names made of separators *)

Lemma separator_lowfix c :
  PyStr.is_space c || Ascii.eqb c "." = true -> lowfix c = true.
Proof. destruct c as [[] [] [] [] [] [] [] []]; vm_compute; congruence. Qed.

Lemma match_here_needs_s c c1 r :
  Ascii.eqb c1 "s" = false ->
  Regex.match_here (String c (String c1 r)) = None.
Proof.
  intros H. destruct c as [[] [] [] [] [] [] [] []]; try reflexivity.
  destruct c1 as [[] [] [] [] [] [] [] []]; try reflexivity.
  discriminate H.
Qed.

Lemma match_here_short c : Regex.match_here (String c "") = None.
Proof. destruct c as [[] [] [] [] [] [] [] []]; reflexivity. Qed.

(** Without an [s] there is no season marker. *)
Lemma search_without_s s : forall i,
  all_chars (fun c => negb (Ascii.eqb c "s")) s = true ->
  Regex.search_from i s = None.
Proof.
  induction s as [|c r IH]; intros i H; [reflexivity|].
  simpl in H. apply andb_prop in H as [_ Hr].
  cbn [Regex.search_from].
  assert (Hm : Regex.match_here (String c r) = None).
  { destruct r as [|c1 r]; [apply match_here_short|].
    apply match_here_needs_s. simpl in Hr. apply andb_prop in Hr as [H1 _].
    now apply negb_true_iff in H1. }
  rewrite Hm. now apply IH.
Qed.

Lemma find_foreign_head (Q : ascii -> bool) x X s :
  Q x = false -> all_chars Q s = true -> PyStr.find s (String x X) = -1.
Proof.
  intros Hx. induction s as [|c r IH]; intros H; [reflexivity|].
  simpl in H. apply andb_prop in H as [Hc Hr].
  rewrite find_cons, prefix_cons, (IH Hr).
  destruct (Ascii.eqb x c) eqn:E; [|reflexivity].
  apply Ascii.eqb_eq in E. congruence.
Qed.

Lemma split_ws_all_space s :
  all_chars PyStr.is_space s = true -> PyStr.split_ws s = (EmptyString, []).
Proof.
  induction s as [|c r IH]; [reflexivity|].
  simpl. intros H. apply andb_prop in H as [Hc Hr].
  now rewrite (IH Hr), Hc.
Qed.

Lemma clear_suffix_heads :
  forallb (fun X => match X with
                    | String x _ => negb (PyStr.is_space x || Ascii.eqb x ".")
                    | EmptyString => false
                    end) CLEAR_SUFFIX = true.
Proof. reflexivity. Qed.

(** X5.  A file name made only of whitespace and dots, the empty one
    among them, gives the empty title and no year, season or episode. *)
Theorem separators_only_give_empty_title (filename : string) :
  all_chars (fun c => PyStr.is_space c || Ascii.eqb c ".") filename = true ->
  get_title_from_filename filename = Ok (EmptyString, None, None, None).
Proof.
  intros Hsep.
  set (sep := fun c => PyStr.is_space c || Ascii.eqb c ".") in *.
  assert (Hlow : PyStr.lower filename = filename).
  { apply lower_fixed. apply (all_chars_impl sep); [|exact Hsep].
    apply separator_lowfix. }
  unfold get_title_from_filename. rewrite Hlow.
  set (name := PyStr.replace " " "." filename).
  assert (Hname : all_chars sep name = true).
  { now apply all_chars_replace. }
  assert (Hre : REGEX_SEASON_EPISODE_search name = None).
  { apply search_without_s. apply (all_chars_impl sep); [|exact Hname].
    intros c. unfold sep. destruct c as [[] [] [] [] [] [] [] []];
      vm_compute; congruence. }
  assert (Hsuf : forallb (fun suffix => PyStr.find name suffix =? -1)
                         CLEAR_SUFFIX = true).
  { apply forallb_forall. intros X HX.
    pose proof (proj1 (forallb_forall _ _) clear_suffix_heads X HX) as Hh.
    destruct X as [|x X]; [discriminate|]. apply negb_true_iff in Hh.
    now rewrite (find_foreign_head sep x X name Hh Hname). }
  unfold season_episode_end. rewrite Hre. cbn [rbind].
  unfold clear_suffix_end. rewrite (fold_no_suffix name _ _ Hsuf).
  unfold title_and_year. rewrite slice_to_len, split_strip.
  assert (Hsp : all_chars PyStr.is_space (PyStr.replace "." " " name) = true).
  { clear -Hname. induction name as [|c r IH]; [reflexivity|].
    simpl in *. apply andb_prop in Hname as [Hc Hr]. rewrite (IH Hr).
    unfold sep in Hc. destruct (Ascii.eqb c "."); [reflexivity|].
    rewrite orb_false_r in Hc. now rewrite Hc. }
  unfold PyStr.split. rewrite (split_ws_all_space _ Hsp). reflexivity.
Qed.

Lemma separators_only_give_empty_title_witness :
  get_title_from_filename " . .. " = Ok (EmptyString, None, None, None).
Proof.
  apply separators_only_give_empty_title. vm_compute. reflexivity.
Defined.

(** ** The ranking of the candidates of a file name *)

(** X6.  A season taken from a file name is never negative, so the
    loop over the candidates never indexes the numeral table from its
    end.  With the year and the season of a file name the loop returns
    the candidates the year test keeps: in the order of the answer when
    there is no season, rearranged when the season is 0..19; when the
    season is 20 or more it raises [IndexError] as soon as the year test
    keeps a candidate. *)
Theorem ranking_of_a_filename {value : Type} (int : value -> result Z)
    (filename : string) (subjects : list (subject value)) :
  exists title year season episode,
    get_title_from_filename filename = Ok (title, year, season, episode) /\
    match season with
    | None =>
        GetSearchResults_subjects int subjects year None
        = Ok (List.filter (year_compatible int year) subjects)
    | Some s =>
        0 <= s /\
        if 20 <=? s then
          GetSearchResults_subjects int subjects year (Some s)
          = match List.filter (year_compatible int year) subjects with
            | [] => Ok []
            | _ :: _ => Raise IndexError
            end
        else
          exists ranked,
            GetSearchResults_subjects int subjects year (Some s) = Ok ranked /\
            Permutation ranked (List.filter (year_compatible int year) subjects)
    end.
Proof.
  unfold get_title_from_filename.
  set (name := PyStr.replace " " "." (PyStr.lower filename)).
  destruct (season_episode_end_ok name)
    as (season & episode & end_ & Hsem & Hseason & _).
  rewrite Hsem. cbn [rbind].
  destruct (title_and_year name (clear_suffix_end name end_)) as [title year].
  exists title, year, season, episode. split; [reflexivity|].
  unfold GetSearchResults_subjects. destruct season as [s|].
  - split; [exact Hseason|]. destruct (20 <=? s) eqn:E.
    + apply Z.leb_le in E.
      now rewrite (rank_loop_no_marker int year s _
                     (str_chinese_season_beyond_table s E)).
    + apply Z.leb_gt in E.
      destruct (str_chinese_season_in_table s) as [marker Hm]; [lia|].
      rewrite (rank_loop_marker int year s marker Hm). eexists.
      split; [reflexivity|]. apply front_back_permutation.
  - now rewrite rank_loop_no_season.
Qed.

(** ** More on [cache_get] *)

Section CacheMore.

Context {json : Type}.
Variable json_loads : string -> result json.
Variable json_dumps : json -> string.
Variable base64_decodebytes : string -> result string.
Variable base64_encodebytes : string -> string.

Local Abbreviation cache_get :=
  (cache_get json json_loads json_dumps base64_decodebytes base64_encodebytes).
Local Abbreviation decode_row := (decode_row json json_loads base64_decodebytes).
Local Abbreviation encode_response :=
  (encode_response json json_dumps base64_encodebytes).
Local Abbreviation steps :=
  (steps json json_loads json_dumps base64_decodebytes base64_encodebytes).
Local Abbreviation step :=
  (step json json_loads json_dumps base64_decodebytes base64_encodebytes).

Lemma valid_type type :
  String.eqb type "json" || String.eqb type "bytes" = true ->
  type = "json" \/ type = "bytes".
Proof.
  intros Ht. apply orb_prop in Ht as [H|H]; apply String.eqb_eq in H; auto.
Qed.

Lemma kept_view m w : kept m w -> m ⊆ cache (connection_view w).
Proof.
  intros [Hf Hc]. unfold connection_view, get_db.
  destruct (g_database w) as [db|] eqn:Hg; simpl; [now apply Hc | exact Hf].
Qed.

Lemma committed_get_db w : committed (snd (get_db w)) = committed w.
Proof.
  unfold get_db, committed. destruct (g_database w); simpl; [reflexivity|].
  now destruct (file w).
Qed.

Lemma kept_commit m db : m ⊆ cache db -> kept m (commit db).
Proof.
  intros H. split; [exact H|]. intros db' Hdb. simpl in Hdb.
  now injection Hdb as <-.
Qed.

Lemma kept_executed m db w :
  kept m w -> m ⊆ cache db -> kept m (executed db (snd (get_db w))).
Proof.
  intros [Hf _] H. split.
  - change (m ⊆ cache (committed (snd (get_db w)))).
    now rewrite committed_get_db.
  - intros db' Hdb. simpl in Hdb. now injection Hdb as <-.
Qed.

Lemma kept_step m w ev : kept m w -> kept m (step w ev).
Proof.
  intros Hk. destruct ev as [key type outcome|]; simpl.
  2:{ destruct Hk as [Hf _]. split; [exact Hf|]. intros db H. discriminate H. }
  destruct (String.eqb type "json" || String.eqb type "bytes") eqn:Ht.
  2:{ now rewrite (cache_get_invalid _ _ _ _ _ _ _ Ht). }
  apply valid_type in Ht. pose proof (kept_view _ _ Hk) as Hview.
  destruct (cache (connection_view w) !! key) as [value|] eqn:Hkey.
  - rewrite (cache_get_hit _ _ _ _ _ _ _ _ Ht Hkey). simpl.
    now apply kept_commit.
  - rewrite (cache_get_miss _ _ _ _ _ _ _ Ht Hkey). simpl.
    destruct outcome as [r|e]; simpl.
    + destruct (encode_response type r) as [[v vs]|e]; simpl.
      * apply kept_commit. simpl. apply insert_subseteq_r; [|exact Hview].
        eapply lookup_weaken_None; eauto.
      * now apply kept_executed.
    + now apply kept_executed.
Qed.

Lemma kept_steps m evs : forall w, kept m w -> kept m (steps w evs).
Proof.
  induction evs as [|ev evs IH]; intros w Hk; simpl; [exact Hk|].
  apply IH. now apply kept_step.
Qed.

(** X7.  The cache only grows: from the start of a request on, whatever
    lookups and requests follow, every entry of the file stays in the
    file, with the same text, and is seen by every later connection. *)
Theorem cache_only_grows (w : world) (evs : list (event json)) :
  g_database w = None ->
  cache (committed w) ⊆ cache (committed (steps w evs)) /\
  cache (committed w) ⊆ cache (connection_view (steps w evs)).
Proof.
  intros Hg.
  assert (Hk : kept (cache (committed w)) w).
  { split; [reflexivity|]. intros db H. congruence. }
  pose proof (kept_steps _ evs w Hk) as Hk'.
  split; [exact (proj1 Hk') | now apply kept_view].
Qed.

(** X8.  When the key is absent and the answer of [func] is not JSON,
    so that [r.json()] raises, the lookup raises the same exception after
    that one call, nothing is stored, and the next lookup of the key, in
    the same request or in a later one, calls [func] again. *)
Theorem malformed_payload_is_not_cached (key : string) (w : world)
    (func : nat -> result (response json)) (calls : nat)
    (r : response json) (e : exn) :
  cache (connection_view w) !! key = None ->
  cache (committed w) !! key = None ->
  func calls = Ok r ->
  r_json json r = Raise e ->
  exists w',
    run (cache_get key "json" w) func calls = ((w', Raise e), S calls) /\
    cache (connection_view w') = cache (connection_view w) /\
    cache (committed w') = cache (committed w) /\
    forall func' calls',
      snd (run (cache_get key "json" w') func' calls') = S calls' /\
      snd (run (cache_get key "json" (close_connection w')) func' calls')
      = S calls'.
Proof.
  intros Hk Hf Hr He.
  assert (Ht : "json" = "json" \/ "json" = "bytes") by now left.
  rewrite (cache_get_miss _ _ _ _ _ _ _ Ht Hk). cbn [run]. rewrite Hr.
  cbv zeta. unfold encode_response.
  change (String.eqb "json" "json") with true. cbv iota. rewrite He.
  cbn [rbind]. eexists. split; [reflexivity|].
  pose proof (committed_get_db w) as Hc.
  split; [reflexivity|]. split; [now rewrite <- Hc|].
  intros func' calls'.
  assert (Hmiss : forall w0, cache (connection_view w0) !! key = None ->
            snd (run (cache_get key "json" w0) func' calls') = S calls').
  { intros w0 H0. rewrite (cache_get_miss _ _ _ _ _ _ _ Ht H0). cbn [run].
    destruct (func' calls') as [r'|e']; cbv zeta; [|reflexivity].
    destruct (encode_response "json" r') as [[v vs]|e']; reflexivity. }
  split; apply Hmiss.
  - exact Hk.
  - change (cache (committed (snd (get_db w))) !! key = None).
    now rewrite Hc.
Qed.

Lemma view_commit db : connection_view (commit db) = db.
Proof. reflexivity. Qed.

Lemma view_executed db w : connection_view (executed db w) = db.
Proof. reflexivity. Qed.

Lemma stats_update_same k db n :
  stats db !! k = Some n -> stats (update_stats k db) !! k = Some (n + 1).
Proof.
  intros H. simpl. rewrite lookup_alter. destruct (decide (k = k)); [|done].
  rewrite H. reflexivity.
Qed.

Lemma stats_update_other k k' db :
  k <> k' -> stats (update_stats k db) !! k' = stats db !! k'.
Proof.
  intros H. simpl. rewrite lookup_alter. now destruct (decide (k = k')).
Qed.

(** X9.  When the two rows of [stats] are there and hold integers below
    [2^63 - 1], a lookup adds one to [num_query], and one to [num_hit]
    exactly when the key was stored, in what its connection sees; and a
    lookup that returns has committed both. *)
Theorem seeded_counters_count (key type : string) (w : world)
    (func : nat -> result (response json)) (calls : nat) (q h : Z) :
  type = "json" \/ type = "bytes" ->
  stats (connection_view w) !! "num_query" = Some q ->
  stats (connection_view w) !! "num_hit" = Some h ->
  - 2 ^ 63 <= q < 2 ^ 63 - 1 ->
  - 2 ^ 63 <= h < 2 ^ 63 - 1 ->
  let w' := fst (fst (run (cache_get key type w) func calls)) in
  let res := snd (fst (run (cache_get key type w) func calls)) in
  stats (connection_view w') !! "num_query" = Some (q + 1) /\
  stats (connection_view w') !! "num_hit"
  = Some (match cache (connection_view w) !! key with
          | Some _ => h + 1
          | None => h
          end) /\
  match res with
  | Ok _ => stats (committed w') = stats (connection_view w')
  | Raise _ => True
  end.
Proof.
  intros Ht Hq Hh _ _. cbv zeta.
  assert (Hne : "num_query" <> "num_hit") by discriminate.
  assert (Hne' : "num_hit" <> "num_query") by discriminate.
  pose proof (stats_update_same _ _ _ Hq) as Hq1.
  assert (Hh1 : stats (update_stats "num_query" (connection_view w))
                  !! "num_hit" = Some h).
  { now rewrite stats_update_other. }
  destruct (cache (connection_view w) !! key) as [value|] eqn:Hk.
  - rewrite (cache_get_hit _ _ _ _ _ _ _ _ Ht Hk). cbn [run fst snd].
    rewrite view_commit. split; [|split].
    + now rewrite stats_update_other.
    + now apply stats_update_same.
    + now destruct (decode_row type value).
  - rewrite (cache_get_miss _ _ _ _ _ _ _ Ht Hk). cbn [run]. cbv zeta.
    destruct (func calls) as [r|e]; [|now cbn [run fst snd]].
    destruct (encode_response type r) as [[v vs]|e]; cbn [run fst snd];
      [|now rewrite view_executed].
    rewrite view_commit. simpl stats. repeat split; assumption.
Qed.

(** X10.  A lookup that fails to fetch commits nothing: its update of
    [num_query] is seen by its own connection only, the [stats] table of
    the file is as before, and so it is for the next request. *)
Theorem failed_lookup_is_not_counted (key type : string) (w : world)
    (func : nat -> result (response json)) (calls : nat) (e : exn) :
  type = "json" \/ type = "bytes" ->
  cache (connection_view w) !! key = None ->
  func calls = Raise e ->
  let w' := fst (fst (run (cache_get key type w) func calls)) in
  stats (connection_view w')
  = stats (update_stats "num_query" (connection_view w)) /\
  stats (committed w') = stats (committed w) /\
  stats (connection_view (close_connection w')) = stats (committed w).
Proof.
  intros Ht Hk He. cbv zeta.
  rewrite (cache_get_miss _ _ _ _ _ _ _ Ht Hk). cbn [run]. rewrite He.
  cbn [run fst snd]. rewrite view_executed.
  pose proof (committed_get_db w) as Hc.
  split; [reflexivity|]. split.
  - change (stats (committed (snd (get_db w))) = stats (committed w)).
    now rewrite Hc.
  - change (stats (committed (snd (get_db w))) = stats (committed w)).
    now rewrite Hc.
Qed.

(** X11.  [cache_get] never returns a [str]: a type other than ['json']
    and ['bytes'] raises [AssertionError] before the database is opened
    or [func] called, so the ['str'] branches are never reached. *)
Theorem str_branch_is_dead (key type : string) (w : world)
    (func : nat -> result (response json)) (calls : nat) :
  (if String.eqb type "json" || String.eqb type "bytes" then True
   else run (cache_get key type w) func calls
        = ((w, Raise AssertionError), calls)) /\
  forall s, snd (fst (run (cache_get key type w) func calls))
            <> Ok (VStr json s).
Proof.
  destruct (String.eqb type "json" || String.eqb type "bytes") eqn:Ht.
  - split; [exact I|]. intros s. apply valid_type in Ht.
    destruct (cache (connection_view w) !! key) as [value|] eqn:Hk.
    + rewrite (cache_get_hit _ _ _ _ _ _ _ _ Ht Hk). cbn [run fst snd].
      destruct Ht as [-> | ->]; unfold decode_row; simpl.
      * destruct (json_loads value); simpl; discriminate.
      * destruct (base64_decodebytes value); simpl; discriminate.
    + rewrite (cache_get_miss _ _ _ _ _ _ _ Ht Hk). cbn [run]. cbv zeta.
      destruct (func calls) as [r|e]; [|cbn [run fst snd]; discriminate].
      destruct Ht as [-> | ->]; unfold encode_response; simpl.
      * destruct (r_json json r); simpl; discriminate.
      * discriminate.
  - rewrite (cache_get_invalid _ _ _ _ _ _ _ Ht). cbn [run fst snd].
    split; [reflexivity | discriminate].
Qed.

End CacheMore.

Lemma cache_only_grows_witness :
  cache (committed
           (steps string text_loads text_dumps
              Base64.decodebytes Base64.encodebytes one_entry_world
              [ Lookup string "image:https://img3.doubanio.com/p.gif" "bytes"
                  (Ok gif_response);
                Teardown string ]))
    !! "search:sense8" = Some "{}".
Proof.
  pose proof (cache_only_grows text_loads text_dumps
                Base64.decodebytes Base64.encodebytes one_entry_world
                [ Lookup string "image:https://img3.doubanio.com/p.gif" "bytes"
                    (Ok gif_response);
                  Teardown string ] eq_refl) as [H _].
  eapply lookup_weaken; [|exact H]. apply lookup_insert_eq.
Defined.

Lemma malformed_payload_is_not_cached_witness :
  exists w',
    run (cache_get string text_loads text_dumps
           Base64.decodebytes Base64.encodebytes
           "search:sense8" "json" initial_world)
        (fun _ => Ok gif_response) 0%nat
    = ((w', Raise ValueError), 1%nat) /\
    cache (connection_view w') = cache (connection_view initial_world) /\
    cache (committed w') = cache (committed initial_world) /\
    forall func' calls',
      snd (run (cache_get string text_loads text_dumps
                  Base64.decodebytes Base64.encodebytes
                  "search:sense8" "json" w') func' calls') = S calls' /\
      snd (run (cache_get string text_loads text_dumps
                  Base64.decodebytes Base64.encodebytes
                  "search:sense8" "json" (close_connection w')) func' calls')
      = S calls'.
Proof.
  apply (malformed_payload_is_not_cached text_loads text_dumps
           Base64.decodebytes Base64.encodebytes
           "search:sense8" initial_world (fun _ => Ok gif_response) 0%nat
           gif_response ValueError).
  - apply lookup_empty.
  - apply lookup_empty.
  - reflexivity.
  - reflexivity.
Defined.

(** A lookup of the stored key with 5 queries and 2 hits counted: it
    returns the stored document, and 6 queries and 3 hits are counted, for
    the connection and in the file. *)
Lemma seeded_counters_count_witness :
  let run1 :=
    run (cache_get Json.doc Json.loads Json.dumps
           Base64.decodebytes Base64.encodebytes
           "search:sense8" "json" counted_world)
        (fun _ => Raise (RequestException "Connection refused")) 0%nat in
  (- 2 ^ 63 <= 5 < 2 ^ 63 - 1 /\ - 2 ^ 63 <= 2 < 2 ^ 63 - 1) /\
  run1 = ((fst (fst run1), Ok (VJson Json.doc (Json.Object []))), 0%nat) /\
  stats (connection_view (fst (fst run1))) !! "num_query" = Some 6 /\
  stats (connection_view (fst (fst run1))) !! "num_hit" = Some 3 /\
  stats (committed (fst (fst run1))) !! "num_query" = Some 6 /\
  stats (committed (fst (fst run1))) !! "num_hit" = Some 3.
Proof.
  cbv zeta. split; [lia|]. split; [reflexivity|].
  destruct (seeded_counters_count Json.loads Json.dumps
              Base64.decodebytes Base64.encodebytes
              "search:sense8" "json" counted_world
              (fun _ => Raise (RequestException "Connection refused")) 0%nat
              5 2 (or_introl eq_refl) eq_refl eq_refl
              ltac:(lia) ltac:(lia)) as (Hq & Hh & Hc).
  split; [exact Hq|]. split; [exact Hh|].
  change (stats (committed
                   (fst (fst (run (cache_get Json.doc Json.loads Json.dumps
                                     Base64.decodebytes Base64.encodebytes
                                     "search:sense8" "json" counted_world)
                                (fun _ => Raise
                                   (RequestException "Connection refused"))
                                0%nat))))
          = stats (connection_view
                     (fst (fst (run (cache_get Json.doc Json.loads Json.dumps
                                       Base64.decodebytes Base64.encodebytes
                                       "search:sense8" "json" counted_world)
                                  (fun _ => Raise
                                     (RequestException "Connection refused"))
                                  0%nat))))) in Hc.
  rewrite Hc. split; [exact Hq | exact Hh].
Defined.

Lemma failed_lookup_is_not_counted_witness :
  let w' :=
    fst (fst (run (cache_get string text_loads text_dumps
                     Base64.decodebytes Base64.encodebytes
                     "search:sense8" "json" seeded_world)
                (fun _ => Raise (RequestException "Connection refused"))
                0%nat)) in
  stats (connection_view w')
  = stats (update_stats "num_query" (connection_view seeded_world)) /\
  stats (committed w') = stats (committed seeded_world) /\
  stats (connection_view (close_connection w')) = stats (committed seeded_world).
Proof.
  apply (failed_lookup_is_not_counted text_loads text_dumps
           Base64.decodebytes Base64.encodebytes
           "search:sense8" "json" seeded_world
           (fun _ => Raise (RequestException "Connection refused")) 0%nat
           (RequestException "Connection refused")).
  - left. reflexivity.
  - apply lookup_empty.
  - reflexivity.
Defined.

(** ** Integers written and read *)

Lemma digit_char_spec d :
  0 <= d <= 9 ->
  PyStr.is_digit (PyStr.digit_char d) = true /\
  PyStr.digit_val (PyStr.digit_char d) = d.
Proof.
  intros H.
  assert (Hd : In d (map Z.of_nat (seq 0 10))).
  { apply in_map_iff. exists (Z.to_nat d). split; [lia|]. apply in_seq. lia. }
  simpl in Hd.
  repeat (destruct Hd as [<- | Hd]; [split; reflexivity|]). destruct Hd.
Qed.

Lemma digits_go_all_digits fuel : forall n acc,
  0 <= n -> all_chars PyStr.is_digit acc = true ->
  all_chars PyStr.is_digit (PyStr.digits_go fuel n acc) = true.
Proof.
  induction fuel as [|fuel IH]; intros n acc Hn Hacc; [exact Hacc|].
  cbn [PyStr.digits_go]. cbv zeta.
  assert (Hacc' : all_chars PyStr.is_digit
                    (String (PyStr.digit_char (n mod 10)) acc) = true).
  { simpl. rewrite Hacc, andb_true_r. apply digit_char_spec.
    pose proof (Z.mod_pos_bound n 10). lia. }
  destruct (n <? 10); [exact Hacc'|].
  apply IH; [|exact Hacc']. apply Z.div_pos; lia.
Qed.

Lemma digits_go_not_empty fuel : forall n acc,
  acc <> EmptyString -> PyStr.digits_go fuel n acc <> EmptyString.
Proof.
  induction fuel as [|fuel IH]; intros n acc H; [exact H|].
  cbn [PyStr.digits_go]. cbv zeta.
  destruct (n <? 10); [discriminate|]. apply IH. discriminate.
Qed.

(** Reading the digits written for [n] carries [n] into the number read
    so far. *)
Lemma int_body_digits_go fuel : forall n acc,
  0 <= n < 2 ^ Z.of_nat (S fuel) ->
  exists p, forall a b,
    PyStr.int_body a b (PyStr.digits_go (S fuel) n acc)
    = PyStr.int_body (a * p + n) true acc.
Proof.
  assert (Hsmall : forall n acc, 0 <= n < 10 ->
            forall a b,
              PyStr.int_body a b (String (PyStr.digit_char (n mod 10)) acc)
              = PyStr.int_body (a * 10 + n) true acc).
  { intros n acc Hn a b. rewrite Z.mod_small by lia.
    destruct (digit_char_spec n) as [Hd Hv]; [lia|].
    cbn [PyStr.int_body]. rewrite Hd, Hv. f_equal. lia. }
  induction fuel as [|fuel IH]; intros n acc Hn.
  - exists 10. intros a b. cbn [PyStr.digits_go]. cbv zeta.
    change (2 ^ Z.of_nat 1) with 2 in Hn.
    destruct (n <? 10) eqn:E; [|apply Z.ltb_ge in E; lia].
    apply Hsmall. lia.
  - cbn [PyStr.digits_go]. cbv zeta.
    destruct (n <? 10) eqn:E.
    + apply Z.ltb_lt in E. exists 10. intros a b. apply Hsmall. lia.
    + apply Z.ltb_ge in E.
      assert (Hdiv : 0 <= n / 10 < 2 ^ Z.of_nat (S fuel)).
      { split; [apply Z.div_pos; lia|].
        apply Z.div_lt_upper_bound; [lia|].
        rewrite (Nat2Z.inj_succ (S fuel)), Z.pow_succ_r in Hn by lia. lia. }
      destruct (IH (n / 10) (String (PyStr.digit_char (n mod 10)) acc) Hdiv)
        as [p Hp].
      exists (p * 10). intros a b. rewrite Hp.
      pose proof (Z.mod_pos_bound n 10) as Hm.
      destruct (digit_char_spec (n mod 10)) as [Hd Hv]; [lia|].
      cbn [PyStr.int_body]. rewrite Hd, Hv. f_equal.
      pose proof (Z.div_mod n 10). lia.
Qed.

Lemma log2_fuel n : 0 <= n -> n < 2 ^ Z.of_nat (S (Z.to_nat (Z.log2 n))).
Proof.
  intros Hn. rewrite Nat2Z.inj_succ, Z2Nat.id by apply Z.log2_nonneg.
  destruct (Z.eq_dec n 0) as [->|Hne]; [reflexivity|].
  apply Z.log2_spec. lia.
Qed.

Lemma int_body_str_digits n :
  0 <= n ->
  PyStr.int_body 0 false
    (PyStr.digits_go (S (Z.to_nat (Z.log2 n))) n EmptyString) = Some n.
Proof.
  intros Hn.
  destruct (int_body_digits_go (Z.to_nat (Z.log2 n)) n EmptyString)
    as [p Hp]; [split; [exact Hn | now apply log2_fuel]|].
  rewrite Hp. reflexivity.
Qed.

Lemma int_of_digits s :
  all_chars PyStr.is_digit s = true -> s <> EmptyString ->
  PyStr.int s = match PyStr.int_body 0 false s with
                | Some n => Ok n
                | None => Raise ValueError
                end.
Proof.
  intros Hd Hne. unfold PyStr.int.
  destruct s as [|c r]; [congruence|].
  pose proof Hd as Hd'. simpl in Hd'. apply andb_prop in Hd' as [Hc Hr].
  rewrite (lstrip_nonspace _ _ _ (digit_not_space _ Hc)).
  rewrite rstrip_no_space.
  2:{ apply (all_chars_impl PyStr.is_digit); [|exact Hd].
      intros c' Hc'. now rewrite (digit_not_space _ Hc'). }
  destruct (digit_not_sign _ Hc) as [Hp Hm].
  destruct c as [[] [] [] [] [] [] [] []]; try congruence;
    destruct (PyStr.int_body 0 false _); reflexivity.
Qed.

Lemma int_of_minus_digits s :
  all_chars PyStr.is_digit s = true ->
  PyStr.int (String "-" s)
  = match PyStr.int_body 0 false s with
    | Some n => Ok (- n)
    | None => Raise ValueError
    end.
Proof.
  intros Hd. unfold PyStr.int.
  rewrite (lstrip_nonspace PyStr.is_int_space "-" s eq_refl).
  rewrite rstrip_no_space; [reflexivity|].
  simpl. apply (all_chars_impl PyStr.is_digit); [|exact Hd].
  intros c' Hc'. now rewrite (digit_not_space _ Hc').
Qed.

(** [int(str(n))] is [n]. *)
Lemma int_str n : PyStr.int (PyStr.str n) = Ok n.
Proof.
  unfold PyStr.str. destruct (n <? 0) eqn:E.
  - apply Z.ltb_lt in E. rewrite int_of_minus_digits.
    + rewrite int_body_str_digits by lia. f_equal. lia.
    + apply digits_go_all_digits; [lia | reflexivity].
  - apply Z.ltb_ge in E. rewrite int_of_digits.
    + now rewrite int_body_str_digits.
    + apply digits_go_all_digits; [lia | reflexivity].
    + cbn [PyStr.digits_go]. cbv zeta.
      destruct (n <? 10); [discriminate|].
      apply digits_go_not_empty. discriminate.
Qed.

Lemma append_inj_l p s t : (p ++ s)%string = (p ++ t)%string -> s = t.
Proof.
  induction p as [|c p IH]; [now rewrite !append_nil_l|].
  rewrite !append_cons. intros H. injection H as H. now apply IH.
Qed.

Lemma str_inj n m : PyStr.str n = PyStr.str m -> n = m.
Proof.
  intros H. apply (f_equal PyStr.int) in H. rewrite !int_str in H.
  now injection H.
Qed.

(** X13.  The keys of the three handlers never meet: a search key, a
    subject key and an image key are always different, and two keys of
    one handler are equal only for the same title, subject or address. *)
Theorem handler_keys_do_not_collide
    (title title' url url' : string) (subject_id subject_id' : Z) :
  search_key title <> subject_key subject_id /\
  search_key title <> image_key url /\
  subject_key subject_id <> image_key url /\
  (search_key title = search_key title' <-> title = title') /\
  (subject_key subject_id = subject_key subject_id'
   <-> subject_id = subject_id') /\
  (image_key url = image_key url' <-> url = url').
Proof.
  unfold search_key, subject_key, image_key.
  repeat split; try discriminate; try (intros ->; reflexivity).
  - apply append_inj_l.
  - intros H. apply append_inj_l in H. now apply str_inj.
  - apply append_inj_l.
Qed.

(** ** The numeral table and its inverse *)

(** X14.  [CHINESE_NUMBER_TO_DIGITS] undoes [DIGITS_TO_CHINESE_NUMBER]:
    the numeral of each of 0..19 is a key, its value is the decimal
    text of that number, and there are twenty keys, so no two numbers
    share a numeral. *)
Theorem numeral_table_round_trip (n : Z) :
  0 <= n <= 19 ->
  size CHINESE_NUMBER_TO_DIGITS = 20%nat /\
  exists chinese,
    py_index DIGITS_TO_CHINESE_NUMBER n = Ok chinese /\
    CHINESE_NUMBER_TO_DIGITS !! chinese = Some (PyStr.str n).
Proof.
  intros H. split; [vm_compute; reflexivity|].
  assert (Hn : In n (map Z.of_nat (seq 0 20))).
  { apply in_map_iff. exists (Z.to_nat n). split; [lia|]. apply in_seq. lia. }
  simpl in Hn.
  repeat (destruct Hn as [<- | Hn];
          [eexists; split; [reflexivity | vm_compute; reflexivity]|]).
  destruct Hn.
Qed.

Lemma numeral_table_round_trip_witness :
  0 <= 12 <= 19 /\
  size CHINESE_NUMBER_TO_DIGITS = 20%nat /\
  exists chinese,
    py_index DIGITS_TO_CHINESE_NUMBER 12 = Ok chinese /\
    CHINESE_NUMBER_TO_DIGITS !! chinese = Some (PyStr.str 12).
Proof.
  split; [lia|]. apply numeral_table_round_trip. lia.
Defined.

(** ** [replace_chinese_season_number] *)

Lemma replace_go_skip old new u : forall s,
  PyStr.replace_go old new (String.length u) (u ++ s)%string
  = PyStr.replace_go old new 0 s.
Proof.
  induction u as [|c u IH]; intros s; [reflexivity|].
  rewrite append_cons. simpl. apply IH.
Qed.

(** A match at the head is replaced, and the scan goes on after it. *)
Lemma replace_go_match old new s :
  old <> EmptyString ->
  PyStr.replace_go old new 0 (old ++ s)%string
  = (new ++ PyStr.replace_go old new 0 s)%string.
Proof.
  intros Hne. destruct old as [|c old]; [contradiction|].
  rewrite append_cons. cbn [PyStr.replace_go].
  assert (Hp : String.prefix (String c old) (String c (old ++ s)) = true).
  { apply prefix_app. exists s. now rewrite append_cons. }
  rewrite Hp. simpl String.length. cbn [Nat.pred].
  now rewrite replace_go_skip.
Qed.

Lemma replace_go_step old new c r :
  String.prefix old (String c r) = false ->
  PyStr.replace_go old new 0 (String c r)
  = String c (PyStr.replace_go old new 0 r).
Proof. intros H. cbn [PyStr.replace_go]. now rewrite H. Qed.

(** Nothing to replace, nothing changed. *)
Lemma replace_go_absent old new s :
  ~ occurs old s -> PyStr.replace_go old new 0 s = s.
Proof.
  induction s as [|c r IH]; intros H; [reflexivity|].
  rewrite replace_go_step.
  - rewrite IH; [reflexivity|]. intros Ho. apply H. now apply occurs_cons.
  - destruct (String.prefix old (String c r)) eqn:E; [|reflexivity].
    exfalso. apply H. now apply occurs_prefix.
Qed.

Lemma mismatch_prefix p : forall q y,
  mismatch p q = true -> String.prefix p (q ++ y)%string = false.
Proof.
  induction p as [|a p IH]; intros [|b q] y H; try discriminate.
  rewrite append_cons, prefix_cons. simpl in H.
  destruct (Ascii.eqb a b); [now apply IH | reflexivity].
Qed.

Lemma occurs_past h pt u y :
  all_chars (fun c => negb (Ascii.eqb c h)) u = true ->
  occurs (String h pt) (u ++ y)%string -> occurs (String h pt) y.
Proof.
  induction u as [|c u IH]; intros Hu H; [exact H|].
  simpl in Hu. apply andb_prop in Hu as [Hc Hu]. apply negb_true_iff in Hc.
  rewrite append_cons in H. apply occurs_inv in H as [H|H].
  - rewrite prefix_cons, Ascii.eqb_sym, Hc in H. discriminate.
  - now apply IH.
Qed.

Lemma apart_inv pat new :
  apart pat new = true ->
  exists h pt nt,
    pat = String h pt /\ new = String h nt /\
    all_chars (fun c => negb (Ascii.eqb c h)) pt = true /\
    all_chars (fun c => negb (Ascii.eqb c h)) nt = true /\
    mismatch pat new = true.
Proof.
  unfold apart. destruct pat as [|h pt]; [discriminate|].
  destruct new as [|h' nt]; [discriminate|]. intros Hap.
  apply andb_prop in Hap as [Hap Hmis]. apply andb_prop in Hap as [Hap Hnt].
  apply andb_prop in Hap as [Hh Hpt]. apply Ascii.eqb_eq in Hh. subst h'.
  exists h, pt, nt. auto.
Qed.

(** What has no [h] and begins the result, [new] beginning with [h],
    begins the text. *)
Lemma replace_go_prefix_tail old h nt q :
  old <> EmptyString ->
  all_chars (fun c => negb (Ascii.eqb c h)) q = true ->
  forall r,
    String.prefix q (PyStr.replace_go old (String h nt) 0 r) = true ->
    String.prefix q r = true.
Proof.
  intros Hold. induction q as [|a q IH]; intros Hq r H; [apply prefix_nil|].
  simpl in Hq. apply andb_prop in Hq as [Ha Hq]. apply negb_true_iff in Ha.
  destruct r as [|c r]; [discriminate H|].
  destruct (String.prefix old (String c r)) eqn:E.
  - apply prefix_app in E as [s' Hs].
    rewrite Hs, (replace_go_match old _ s' Hold) in H.
    rewrite append_cons, prefix_cons, Ha in H. discriminate.
  - rewrite (replace_go_step old _ c r E) in H.
    rewrite prefix_cons in *. destruct (Ascii.eqb a c); [|discriminate].
    now apply IH.
Qed.

(** An occurrence in the result of a [pat] that is apart from [new] was
    an occurrence in the text, at a place where [old] did not begin. *)
Lemma replace_go_occurs old new pat :
  old <> EmptyString -> apart pat new = true ->
  forall n s, (String.length s <= n)%nat ->
    occurs pat (PyStr.replace_go old new 0 s) ->
    exists pre s1, s = (pre ++ s1)%string /\
                   String.prefix pat s1 = true /\
                   String.prefix old s1 = false.
Proof.
  intros Hold Hap.
  destruct (apart_inv _ _ Hap) as (h & pt & nt & -> & -> & Hpt & Hnt & Hmis).
  induction n as [|n IH]; intros s Hlen Hocc.
  - destruct s; [|simpl in Hlen; lia]. apply occurs_empty in Hocc.
    discriminate.
  - destruct s as [|c r]; [apply occurs_empty in Hocc; discriminate|].
    destruct (String.prefix old (String c r)) eqn:E.
    + apply prefix_app in E as [s' Hs].
      rewrite Hs, (replace_go_match old _ s' Hold) in Hocc.
      rewrite append_cons in Hocc. apply occurs_inv in Hocc as [H|H].
      * rewrite <- append_cons, (mismatch_prefix _ _ _ Hmis) in H.
        discriminate.
      * apply (occurs_past h pt nt _ Hnt) in H.
        destruct (IH s') as (pre & s1 & -> & Hp & Ho).
        { apply (f_equal String.length) in Hs. rewrite length_append in Hs.
          simpl in Hs, Hlen. destruct old; [contradiction | simpl in Hs; lia]. }
        { exact H. }
        exists (old ++ pre)%string, s1. rewrite Hs.
        split; [now rewrite append_assoc | now split].
    + rewrite (replace_go_step old _ c r E) in Hocc.
      apply occurs_inv in Hocc as [H|H].
      * exists "", (String c r). split; [reflexivity|]. split; [|exact E].
        rewrite prefix_cons in *. destruct (Ascii.eqb h c); [|discriminate].
        apply (replace_go_prefix_tail old h nt pt Hold Hpt). exact H.
      * destruct (IH r) as (pre & s1 & -> & Hp & Ho);
          [simpl in Hlen; lia | exact H |].
        exists (String c pre), s1. now rewrite append_cons.
Qed.

(** After the replacement [old] is gone, if it is apart from [new]. *)
Lemma replace_go_removes old new s :
  old <> EmptyString -> apart old new = true ->
  ~ occurs old (PyStr.replace_go old new 0 s).
Proof.
  intros Hold Hap Hocc.
  destruct (replace_go_occurs old new old Hold Hap _ s (Nat.le_refl _) Hocc)
    as (pre & s1 & _ & Hp & Ho).
  congruence.
Qed.

(** And no [pat] that is apart from [new] has come in. *)
Lemma replace_go_brings_nothing old new pat s :
  old <> EmptyString -> apart pat new = true ->
  ~ occurs pat s -> ~ occurs pat (PyStr.replace_go old new 0 s).
Proof.
  intros Hold Hap Hno Hocc.
  destruct (replace_go_occurs old new pat Hold Hap _ s (Nat.le_refl _) Hocc)
    as (pre & s1 & -> & Hp & _).
  apply Hno, occurs_app_r. now apply occurs_prefix.
Qed.

Lemma replace_str_go old new s :
  old <> EmptyString ->
  PyStr.replace_str old new s = PyStr.replace_go old new 0 s.
Proof.
  intros H. unfold PyStr.replace_str. destruct old; [contradiction|reflexivity].
Qed.

Lemma chinese_marker_not_empty chinese : chinese_marker chinese <> EmptyString.
Proof.
  intros H. apply (f_equal String.length) in H. unfold chinese_marker in H.
  rewrite length_append in H. simpl in H. discriminate.
Qed.

Lemma in_combine_exists {A B : Type} (l1 : list A) : forall (l2 : list B) y,
  length l1 = length l2 -> In y l2 -> exists x, In (x, y) (combine l1 l2).
Proof.
  induction l1 as [|a l1 IH]; intros [|b l2] y Hlen Hin;
    try discriminate; [destruct Hin|].
  injection Hlen as Hlen. destruct Hin as [->|Hin].
  - exists a. now left.
  - destruct (IH l2 y Hlen Hin) as [x Hx]. exists x. now right.
Qed.

Lemma in_enumerate {A : Type} (l : list A) y :
  In y l -> exists d, In (d, y) (enumerate l).
Proof.
  intros H. apply in_combine_exists; [|exact H].
  now rewrite length_map, length_seq.
Qed.

(** Every marker is apart from every replacement. *)
Lemma markers_apart :
  forallb (fun pat =>
             forallb (fun dc => apart pat (digit_marker (fst dc)))
                     (enumerate DIGITS_TO_CHINESE_NUMBER))
          chinese_markers = true.
Proof. vm_compute. reflexivity. Qed.

Lemma marker_apart chinese dc :
  In chinese DIGITS_TO_CHINESE_NUMBER ->
  In dc (enumerate DIGITS_TO_CHINESE_NUMBER) ->
  apart (chinese_marker chinese) (digit_marker (fst dc)) = true.
Proof.
  intros Hc Hdc.
  pose proof (proj1 (forallb_forall _ _) markers_apart
                (chinese_marker chinese) (in_map _ _ _ Hc)) as H.
  exact (proj1 (forallb_forall _ _) H dc Hdc).
Qed.

Lemma fold_absent (l0 : list (Z * string)) : forall s,
  (forall dc, In dc l0 -> ~ occurs (chinese_marker (snd dc)) s) ->
  fold_left rewrite_step l0 s = s.
Proof.
  induction l0 as [|dc l0 IH]; intros s H; [reflexivity|].
  simpl. assert (Hs : rewrite_step s dc = s).
  { unfold rewrite_step. rewrite replace_str_go by apply chinese_marker_not_empty.
    apply replace_go_absent, H. now left. }
  rewrite Hs. apply IH. intros dc' Hin. apply H. now right.
Qed.

Lemma fold_keeps_out pat (l0 : list (Z * string)) : forall s,
  (forall dc, In dc l0 -> apart pat (digit_marker (fst dc)) = true) ->
  ~ occurs pat s -> ~ occurs pat (fold_left rewrite_step l0 s).
Proof.
  induction l0 as [|dc l0 IH]; intros s Hap Hno; [exact Hno|].
  simpl. apply IH; [intros dc' Hin; apply Hap; now right|].
  unfold rewrite_step. rewrite replace_str_go by apply chinese_marker_not_empty.
  apply replace_go_brings_nothing;
    [apply chinese_marker_not_empty | apply Hap; now left | exact Hno].
Qed.

Lemma fold_removes chinese (l0 : list (Z * string)) : forall s,
  (forall dc, In dc l0 ->
     apart (chinese_marker chinese) (digit_marker (fst dc)) = true) ->
  (exists d, In (d, chinese) l0) ->
  ~ occurs (chinese_marker chinese) (fold_left rewrite_step l0 s).
Proof.
  induction l0 as [|dc l0 IH]; intros s Hap [d Hin]; [destruct Hin|].
  simpl. destruct Hin as [->|Hin].
  - apply fold_keeps_out; [intros dc' Hin'; apply Hap; now right|].
    unfold rewrite_step. rewrite replace_str_go by apply chinese_marker_not_empty.
    apply replace_go_removes; [apply chinese_marker_not_empty|].
    apply (Hap (d, chinese)). now left.
  - apply IH; [intros dc' Hin'; apply Hap; now right | eauto].
Qed.

Lemma no_marker_left title chinese :
  In chinese DIGITS_TO_CHINESE_NUMBER ->
  ~ occurs (chinese_marker chinese) (replace_chinese_season_number title).
Proof.
  intros Hc. unfold replace_chinese_season_number.
  apply (fold_removes chinese (enumerate DIGITS_TO_CHINESE_NUMBER) title); [|now apply in_enumerate].
  intros dc Hdc. now apply marker_apart.
Qed.

(** X15.  In what [replace_chinese_season_number] returns none of the
    twenty numeral markers is left. *)
Theorem no_numeral_marker_is_left (title : string) :
  forallb
    (fun chinese =>
       negb (PyStr.contains (chinese_marker chinese)
               (replace_chinese_season_number title)))
    DIGITS_TO_CHINESE_NUMBER = true.
Proof.
  apply forallb_forall. intros chinese Hc.
  apply negb_true_iff, not_contains_occurs. now apply no_marker_left.
Qed.

Lemma unchanged_without_markers title :
  (forall chinese, In chinese DIGITS_TO_CHINESE_NUMBER ->
     ~ occurs (chinese_marker chinese) title) ->
  replace_chinese_season_number title = title.
Proof.
  intros H. unfold replace_chinese_season_number.
  apply (fold_absent (enumerate DIGITS_TO_CHINESE_NUMBER) title).
  intros [d c] Hin. apply H. simpl.
  unfold enumerate in Hin. now apply List.in_combine_r in Hin.
Qed.

(** X16.  [replace_chinese_season_number] is idempotent: a second pass
    changes nothing. *)
Theorem replace_chinese_season_number_idempotent (title : string) :
  replace_chinese_season_number (replace_chinese_season_number title)
  = replace_chinese_season_number title.
Proof.
  apply unchanged_without_markers. intros chinese Hc.
  now apply no_marker_left.
Qed.

(** X17.  A title in which none of the twenty numeral markers occurs is
    returned as it is. *)
Theorem title_without_marker_is_unchanged (title : string) :
  forallb (fun chinese => negb (PyStr.contains (chinese_marker chinese) title))
          DIGITS_TO_CHINESE_NUMBER = true ->
  replace_chinese_season_number title = title.
Proof.
  intros H. apply unchanged_without_markers. intros chinese Hc.
  apply not_contains_occurs, negb_true_iff.
  exact (proj1 (forallb_forall _ _) H chinese Hc).
Qed.

Lemma title_without_marker_is_unchanged_witness :
  replace_chinese_season_number "王牌特工:特工学院 第2季"
  = "王牌特工:特工学院 第2季".
Proof.
  apply title_without_marker_is_unchanged. vm_compute. reflexivity.
Defined.

(** *** One marker in a title *)

Lemma prefix_trans a b c :
  String.prefix a b = true -> String.prefix b c = true ->
  String.prefix a c = true.
Proof.
  intros H1 H2. apply prefix_app in H1 as [t ->]. apply prefix_app in H2 as [u ->].
  apply prefix_app. exists (t ++ u)%string. now rewrite append_assoc.
Qed.

(** [x] does not begin in [pre] when it does not occur there and what
    follows [pre] begins with the first character of [x], which [x] has
    only once. *)
Lemma no_prefix_across h xt c pre y :
  all_chars (fun a => negb (Ascii.eqb a h)) xt = true ->
  ~ occurs (String h xt) (String c pre) ->
  String.prefix (String h xt) (String c pre ++ String h y)%string = false.
Proof.
  intros Hxt Hno.
  destruct (String.prefix (String h xt) (String c pre ++ String h y)%string)
    eqn:E; [|reflexivity].
  exfalso. apply Hno, occurs_prefix.
  rewrite append_cons, prefix_cons in E. rewrite prefix_cons.
  destruct (Ascii.eqb h c); [|discriminate].
  now apply (prefix_app_sep xt h pre y).
Qed.

(** Between a [pre] and a [post] without [x], a pattern that begins
    with [x] occurs only at the head of the middle. *)
Lemma occurs_only_at_mid h xt pat mt post :
  all_chars (fun a => negb (Ascii.eqb a h)) xt = true ->
  all_chars (fun a => negb (Ascii.eqb a h)) mt = true ->
  String.prefix (String h xt) pat = true ->
  ~ occurs (String h xt) post ->
  forall pre,
    ~ occurs (String h xt) pre ->
    occurs pat (pre ++ String h mt ++ post)%string ->
    String.prefix pat (String h mt ++ post)%string = true.
Proof.
  intros Hxt Hmt Hx Hpost.
  assert (Hpat : exists pt, pat = String h pt).
  { apply prefix_app in Hx as [t ->]. rewrite append_cons. eauto. }
  destruct Hpat as [pt ->].
  induction pre as [|c pre IH]; intros Hpre Hocc.
  - rewrite append_nil_l, append_cons in Hocc.
    apply occurs_inv in Hocc as [H|H]; [now rewrite append_cons|].
    exfalso. apply Hpost. apply (occurs_past h pt mt post Hmt) in H.
    apply (occurs_trans _ (String h pt)); [now apply occurs_prefix | exact H].
  - rewrite append_cons in Hocc. apply occurs_inv in Hocc as [H|H].
    + exfalso. rewrite <- append_cons in H.
      pose proof (prefix_trans _ _ _ Hx H) as Hx'.
      rewrite (append_cons h mt post) in Hx'.
      now rewrite (no_prefix_across h xt c pre _ Hxt Hpre) in Hx'.
    + apply IH; [|exact H]. intros Ho. apply Hpre. now apply occurs_cons.
Qed.

(** The occurrence of [old] after a [pre] without [x] is the one
    replaced. *)
Lemma replace_go_in_context h xt old new post :
  all_chars (fun a => negb (Ascii.eqb a h)) xt = true ->
  String.prefix (String h xt) old = true ->
  ~ occurs old post ->
  forall pre,
    ~ occurs (String h xt) pre ->
    PyStr.replace_go old new 0 (pre ++ old ++ post)%string
    = (pre ++ new ++ post)%string.
Proof.
  intros Hxt Hx Hpost.
  assert (Hold : exists ot, old = String h ot).
  { apply prefix_app in Hx as [t ->]. rewrite append_cons. eauto. }
  destruct Hold as [ot Hold].
  assert (Hne : old <> EmptyString) by (rewrite Hold; discriminate).
  induction pre as [|c pre IH]; intros Hpre.
  - rewrite !append_nil_l, (replace_go_match old new post Hne).
    now rewrite (replace_go_absent old new post Hpost).
  - rewrite !append_cons, replace_go_step.
    + rewrite IH; [reflexivity|]. intros Ho. apply Hpre. now apply occurs_cons.
    + destruct (String.prefix old (String c (pre ++ old ++ post))) eqn:E;
        [|reflexivity].
      exfalso. rewrite <- append_cons in E.
      pose proof (prefix_trans _ _ _ Hx E) as Hx'.
      rewrite Hold, (append_cons h ot post) in Hx'.
      now rewrite (no_prefix_across h xt c pre _ Hxt Hpre) in Hx'.
Qed.

(** The loop when one turn only finds its marker. *)
Lemma fold_one_turn n chinese T0 T1 (l : list (Z * string)) :
  rewrite_step T0 (n, chinese) = T1 ->
  (forall dc, In dc l -> ~ occurs (chinese_marker (snd dc)) T1) ->
  (forall dc, In dc l -> snd dc = chinese -> fst dc = n) ->
  (forall dc, In dc l -> snd dc <> chinese ->
     ~ occurs (chinese_marker (snd dc)) T0) ->
  (exists d, In (d, chinese) l) ->
  fold_left rewrite_step l T0 = T1.
Proof.
  intros Hstep. induction l as [|dc l IH]; intros H1 Hn H0 [d Hin];
    [destruct Hin|].
  simpl. destruct (string_dec (snd dc) chinese) as [Heq|Hne].
  - assert (Hdc : dc = (n, chinese)).
    { destruct dc as [d' c']. simpl in Heq. subst c'.
      pose proof (Hn (d', chinese) (or_introl eq_refl) eq_refl) as Hd.
      simpl in Hd. now subst d'. }
    rewrite Hdc, Hstep. apply fold_absent.
    intros dc' Hin'. apply H1. now right.
  - assert (Hs : rewrite_step T0 dc = T0).
    { unfold rewrite_step.
      rewrite replace_str_go by apply chinese_marker_not_empty.
      apply replace_go_absent, H0; [now left | exact Hne]. }
    rewrite Hs. apply IH.
    + intros dc' Hin'. apply H1. now right.
    + intros dc' Hin'. apply Hn. now right.
    + intros dc' Hin'. apply H0. now right.
    + destruct Hin as [->|Hin]; [simpl in Hne; contradiction | eauto].
Qed.

(** Two different markers differ at a place both have, and each number
    has its own numeral. *)
Lemma markers_differ :
  forallb (fun c =>
             forallb (fun c' =>
                        String.eqb c c'
                        || mismatch (chinese_marker c') (chinese_marker c))
                     DIGITS_TO_CHINESE_NUMBER)
          DIGITS_TO_CHINESE_NUMBER = true.
Proof. vm_compute. reflexivity. Qed.

Lemma numerals_differ :
  forallb (fun dc =>
             forallb (fun dc' =>
                        negb (String.eqb (snd dc) (snd dc'))
                        || (fst dc =? fst dc'))
                     (enumerate DIGITS_TO_CHINESE_NUMBER))
          (enumerate DIGITS_TO_CHINESE_NUMBER) = true.
Proof. vm_compute. reflexivity. Qed.

Lemma py_index_enumerate n chinese :
  0 <= n -> py_index DIGITS_TO_CHINESE_NUMBER n = Ok chinese ->
  In (n, chinese) (enumerate DIGITS_TO_CHINESE_NUMBER).
Proof.
  intros Hn H.
  assert (Hlt : n < 20).
  { destruct (Z_lt_ge_dec n 20) as [Hl|Hg]; [exact Hl|].
    unfold py_index in H.
    change (Z.of_nat (length DIGITS_TO_CHINESE_NUMBER)) with 20 in H.
    destruct (n <? 0) eqn:E1; [apply Z.ltb_lt in E1; lia|].
    destruct (n <? 20) eqn:E2; [apply Z.ltb_lt in E2; lia|].
    rewrite andb_false_r in H. discriminate. }
  assert (Hin : In n (map Z.of_nat (seq 0 20))).
  { apply in_map_iff. exists (Z.to_nat n). split; [lia|]. apply in_seq. lia. }
  simpl in Hin.
  repeat (destruct Hin as [<- | Hin];
          [vm_compute in H; injection H as <-; vm_compute; tauto|]).
  destruct Hin.
Qed.

Lemma marker_heads chinese n :
  String.prefix "第" (chinese_marker chinese) = true /\
  String.prefix "第" (digit_marker n) = true.
Proof.
  split; apply prefix_app; eexists; reflexivity.
Qed.

(** The turn of the loop for the one marker of a title. *)
Lemma one_marker_rewritten
    (pre post chinese : string) (n : Z) :
  0 <= n ->
  py_index DIGITS_TO_CHINESE_NUMBER n = Ok chinese ->
  PyStr.contains "第" pre = false ->
  PyStr.contains "第" post = false ->
  replace_chinese_season_number (pre ++ chinese_marker chinese ++ post)
  = (pre ++ digit_marker n ++ post)%string.
Proof.
  intros Hn Hidx Hpre Hpost.
  apply not_contains_occurs in Hpre, Hpost.
  pose proof (py_index_enumerate n chinese Hn Hidx) as Hin.
  assert (Hc : In chinese DIGITS_TO_CHINESE_NUMBER).
  { unfold enumerate in Hin. now apply List.in_combine_r in Hin. }
  assert (Hx : exists h xt, "第" = String h xt /\
                 all_chars (fun a => negb (Ascii.eqb a h)) xt = true).
  { do 2 eexists. split; reflexivity. }
  destruct Hx as (h & xt & Hdi & Hxt). rewrite Hdi in Hpre, Hpost.
  assert (Hmid : forall pat new, apart pat new = true ->
            String.prefix (String h xt) pat = true ->
            String.prefix (String h xt) new = true ->
            (exists pt, pat = String h pt /\
               all_chars (fun a => negb (Ascii.eqb a h)) pt = true) /\
            (exists nt, new = String h nt /\
               all_chars (fun a => negb (Ascii.eqb a h)) nt = true)).
  { intros pat new Hap Hp Hq.
    destruct (apart_inv _ _ Hap) as (h' & pt & nt & -> & -> & Hpt & Hnt & _).
    rewrite prefix_cons in Hp. destruct (Ascii.eqb h h') eqn:E; [|discriminate].
    apply Ascii.eqb_eq in E. subst h'. split; eauto. }
  assert (Hhead : forall c d,
            String.prefix (String h xt) (chinese_marker c) = true /\
            String.prefix (String h xt) (digit_marker d) = true).
  { intros c d. rewrite <- Hdi. apply marker_heads. }
  assert (Hafter : forall c, In c DIGITS_TO_CHINESE_NUMBER ->
            ~ occurs (chinese_marker c) post).
  { intros c _ Ho. apply Hpost.
    apply (occurs_trans _ (chinese_marker c)); [|exact Ho].
    apply occurs_prefix, Hhead. exact 0. }
  apply (fold_one_turn n chinese).
  - unfold rewrite_step. cbn [fst snd].
    rewrite replace_str_go by apply chinese_marker_not_empty.
    apply (replace_go_in_context h xt); auto. apply Hhead. exact 0.
  - intros [d c] Hdc. cbn [snd].
    assert (Hc' : In c DIGITS_TO_CHINESE_NUMBER).
    { unfold enumerate in Hdc. now apply List.in_combine_r in Hdc. }
    pose proof (marker_apart c (n, chinese) Hc' Hin) as Hap. cbn [fst] in Hap.
    destruct (Hmid _ _ Hap (proj1 (Hhead c n)) (proj2 (Hhead c n)))
      as [_ (nt & Hnew & Hnt)].
    intros Ho. rewrite Hnew in Ho.
    apply (occurs_only_at_mid h xt _ nt post Hxt Hnt (proj1 (Hhead c n))
             Hpost pre Hpre) in Ho.
    rewrite <- Hnew in Ho.
    destruct (apart_inv _ _ Hap) as (_ & _ & _ & _ & _ & _ & _ & Hmis).
    now rewrite (mismatch_prefix _ _ _ Hmis) in Ho.
  - intros [d c] Hdc Heq. cbn [fst snd] in *. subst c.
    pose proof (proj1 (forallb_forall _ _) numerals_differ _ Hdc) as H.
    pose proof (proj1 (forallb_forall _ _) H _ Hin) as H'.
    cbn [fst snd] in H'. rewrite String.eqb_refl in H'. simpl in H'.
    now apply Z.eqb_eq in H'.
  - intros [d c] Hdc Hne. cbn [snd] in *.
    assert (Hc' : In c DIGITS_TO_CHINESE_NUMBER).
    { unfold enumerate in Hdc. now apply List.in_combine_r in Hdc. }
    pose proof (marker_apart chinese (n, chinese) Hc Hin) as Hap.
    cbn [fst] in Hap.
    destruct (Hmid _ _ Hap (proj1 (Hhead chinese n)) (proj2 (Hhead chinese n)))
      as [(mt & Hold & Hmt) _].
    intros Ho. rewrite Hold in Ho.
    apply (occurs_only_at_mid h xt _ mt post Hxt Hmt (proj1 (Hhead c n))
             Hpost pre Hpre) in Ho.
    rewrite <- Hold in Ho.
    pose proof (proj1 (forallb_forall _ _) markers_differ _ Hc) as H.
    pose proof (proj1 (forallb_forall _ _) H _ Hc') as H'.
    apply orb_prop in H' as [H'|H'].
    + apply String.eqb_eq in H'. congruence.
    + now rewrite (mismatch_prefix _ _ _ H') in Ho.
  - eauto.
Qed.

(** The numeral of a season of the table, as [py_index] finds it. *)
Lemma py_index_nth_error n chinese :
  0 <= n <= 19 ->
  nth_error DIGITS_TO_CHINESE_NUMBER (Z.to_nat n) = Some chinese ->
  py_index DIGITS_TO_CHINESE_NUMBER n = Ok chinese.
Proof.
  intros Hn H. unfold py_index.
  change (Z.of_nat (length DIGITS_TO_CHINESE_NUMBER)) with 20.
  destruct (n <? 0) eqn:Hneg; [apply Z.ltb_lt in Hneg; lia|].
  assert (H0 : (0 <=? n) = true) by (apply Z.leb_le; lia).
  assert (H1 : (n <? 20) = true) by (apply Z.ltb_lt; lia).
  rewrite H0, H1, H. reflexivity.
Qed.

(** ['第{:02d}季'] of a season of the table: two digits, the tens and the
    units. *)
Lemma digit_marker_two_digits n :
  0 <= n <= 19 ->
  digit_marker n
  = ("第"
     ++ String (ascii_of_nat (48 + Z.to_nat (n / 10)))
          (String (ascii_of_nat (48 + Z.to_nat (n mod 10))) EmptyString)
     ++ "季")%string.
Proof.
  intros H.
  assert (Hs : In n (map Z.of_nat (seq 0 20))).
  { apply in_map_iff. exists (Z.to_nat n). split; [lia|]. apply in_seq. lia. }
  simpl in Hs.
  repeat (destruct Hs as [<- | Hs]; [vm_compute; reflexivity|]).
  destruct Hs.
Qed.

(** X18.  A title with one season marker, [第], the numeral of a season
    [n] of 0..19 and [季]: when [第] occurs neither before nor after it,
    the numeral is rewritten as two decimal digits, the tens of [n] (a
    zero below ten) and its units, and the rest of the title is left as
    it is. *)
Theorem season_marker_is_rewritten
    (pre post chinese : string) (n : Z) :
  0 <= n <= 19 ->
  nth_error DIGITS_TO_CHINESE_NUMBER (Z.to_nat n) = Some chinese ->
  PyStr.contains "第" pre = false ->
  PyStr.contains "第" post = false ->
  replace_chinese_season_number (pre ++ ("第" ++ chinese ++ "季") ++ post)
  = (pre
     ++ ("第"
         ++ String (ascii_of_nat (48 + Z.to_nat (n / 10)))
              (String (ascii_of_nat (48 + Z.to_nat (n mod 10))) EmptyString)
         ++ "季")
     ++ post)%string.
Proof.
  intros Hn Hidx Hpre Hpost.
  rewrite <- (digit_marker_two_digits n Hn).
  apply (one_marker_rewritten pre post chinese n);
    [lia | now apply py_index_nth_error | exact Hpre | exact Hpost].
Qed.

(** The twelfth season is written [12], the third [03]. *)
Lemma season_marker_is_rewritten_witness :
  replace_chinese_season_number "纸牌屋 第十二季 (2013)"
  = "纸牌屋 第12季 (2013)"%string /\
  replace_chinese_season_number "老友记 第三季" = "老友记 第03季"%string.
Proof.
  split.
  - apply (season_marker_is_rewritten "纸牌屋 " " (2013)" "十二" 12).
    + lia.
    + reflexivity.
    + vm_compute. reflexivity.
    + vm_compute. reflexivity.
  - apply (season_marker_is_rewritten "老友记 " "" "三" 3).
    + lia.
    + reflexivity.
    + vm_compute. reflexivity.
    + vm_compute. reflexivity.
Defined.
